(** * HlivePlayer16: the radio status route ([src/app/api/status/route.ts])

    A shallow embedding of the [GET] handler of the status route and of the
    part of the JavaScript runtime it relies on (strings, numbers, JSON
    values, exceptions), followed by the properties of the resolver.

    Conventions of the embedding:
    - a JavaScript string is a Rocq [string] holding its UTF-8 bytes; every
      operation the route applies to strings ([endsWith], [includes], the two
      regular-expression replacements, [trim], [split], [join]) is insensitive
      to the difference with UTF-16 code units, because all the characters it
      looks for are ASCII except the Unicode white space, which is matched
      here as the corresponding byte sequences;
    - a JavaScript number is a primitive binary64 [float];
    - a value of the language is [option json]: [None] is [undefined];
    - an [await]ed computation that may throw lives in the monad [M], which
      threads the local variables of [GET] through exceptions, so that an
      assignment made before a [throw] is still visible in the [catch]. *)

From Stdlib Require Import ZArith NArith Bool List Ascii String Floats Lia.
From Stdlib Require Import DecimalString.
Import ListNotations.

Local Open Scope string_scope.
Local Open Scope list_scope.

(* ================================================================== *)
(** ** Strings *)

Module Str.

Definition chr (n : N) : ascii := ascii_of_N n.

Definition code (c : ascii) : N := N_of_ascii c.

(** The double-quote character (U+0022). *)
Definition dquote : ascii := chr 34.

Fixpoint rev_append (s acc : string) : string :=
  match s with
  | EmptyString => acc
  | String c s' => rev_append s' (String c acc)
  end.

Definition rev (s : string) : string := rev_append s "".

(** [String.prototype.endsWith]: compare the last [length p] characters. *)
Definition endsWith (s p : string) : bool :=
  if Nat.ltb (String.length s) (String.length p) then false
  else String.eqb
         (String.substring (String.length s - String.length p) (String.length p) s) p.

(** [String.prototype.includes]: [p] occurs at some position of [s]. *)
Fixpoint includes (s p : string) : bool :=
  String.prefix p s ||
  match s with
  | EmptyString => false
  | String _ s' => includes s' p
  end.

(** [String.prototype.split] with a one-character separator. *)
Fixpoint split (sep : ascii) (s : string) : list string :=
  match s with
  | EmptyString => [""]
  | String c s' =>
      if Ascii.eqb c sep then "" :: split sep s'
      else match split sep s' with
           | p :: ps => String c p :: ps
           | [] => [String c ""]
           end
  end.

(** [Array.prototype.join]. *)
Definition join (sep : string) (l : list string) : string := String.concat sep l.

(** *** White space

    [WhiteSpace] and [LineTerminator] of ECMAScript, the set removed by
    [trim] and skipped by [Number] around a numeric literal: TAB, LF, VT,
    FF, CR, SP, and as UTF-8 byte sequences U+00A0, U+1680, U+2000..U+200A,
    U+2028, U+2029, U+202F, U+205F, U+3000 and U+FEFF. *)

Definition ws1 (a : N) : bool :=
  ((9 <=? a) && (a <=? 13) || (a =? 32))%N.

Definition ws2 (a b : N) : bool := ((a =? 194) && (b =? 160))%N.

Definition ws3 (a b c : N) : bool :=
  ((a =? 225) && (b =? 154) && (c =? 128)
   || (a =? 226) && (b =? 128)
      && ((128 <=? c) && (c <=? 138) || (c =? 168) || (c =? 169) || (c =? 175))
   || (a =? 226) && (b =? 129) && (c =? 159)
   || (a =? 227) && (b =? 128) && (c =? 128)
   || (a =? 239) && (b =? 187) && (c =? 191))%N.

(** Strip white space from the front.  With [back = true] the string is
    read backwards (it is a reversed string), so multi-byte sequences are
    met last byte first. *)
Fixpoint strip_ws (back : bool) (s : string) : string :=
  match s with
  | EmptyString => ""
  | String c1 s1 =>
      if ws1 (code c1) then strip_ws back s1
      else
        match s1 with
        | EmptyString => s
        | String c2 s2 =>
            if (if back then ws2 (code c2) (code c1) else ws2 (code c1) (code c2))
            then strip_ws back s2
            else
              match s2 with
              | EmptyString => s
              | String c3 s3 =>
                  if (if back then ws3 (code c3) (code c2) (code c1)
                      else ws3 (code c1) (code c2) (code c3))
                  then strip_ws back s3
                  else s
              end
        end
  end.

Definition trimStart (s : string) : string := strip_ws false s.

Definition trimEnd (s : string) : string := rev (strip_ws true (rev s)).

(** [String.prototype.trim]. *)
Definition trim (s : string) : string := trimEnd (trimStart s).

(** *** [txt.replace(/<[^>]+>/g, "")]

    A match starts at a ["<"], takes at least one character that is not
    [">"], as many as there are (no backtracking can help: every character
    given back is not a [">"]), and then needs a [">"]. *)

(** The rest of [s] after its first [">"], if it has one. *)
Fixpoint after_gt (s : string) : option string :=
  match s with
  | EmptyString => None
  | String c s' => if Ascii.eqb c ">" then Some s' else after_gt s'
  end.

(** Match [/<[^>]+>/] at the very start of [s]; the rest after the match. *)
Definition match_tag (s : string) : option string :=
  match s with
  | String a (String c s') =>
      if Ascii.eqb a "<" && negb (Ascii.eqb c ">") then after_gt s' else None
  | _ => None
  end.

(** Global replacement by the empty string, scanning left to right and
    resuming after each match.  [fuel] bounds the number of steps; each step
    consumes at least one character, so [length s] is always enough. *)
Fixpoint replace_tags (fuel : nat) (s : string) : string :=
  match fuel with
  | O => s
  | S n =>
      match s with
      | EmptyString => ""
      | String c s' =>
          match match_tag s with
          | Some rest => replace_tags n rest
          | None => String c (replace_tags n s')
          end
      end
  end.

Definition stripTags (s : string) : string := replace_tags (String.length s) s.

(** *** [s.replace(/^"+|"+$/g, "")]

    The first alternative removes the run of quotes at the start; the second
    can only match a run of quotes that reaches the end of the string. *)

Fixpoint dropQuotesStart (s : string) : string :=
  match s with
  | String c s' => if Ascii.eqb c dquote then dropQuotesStart s' else s
  | EmptyString => ""
  end.

Fixpoint dropQuotesEnd (s : string) : string :=
  match s with
  | EmptyString => ""
  | String c s' =>
      let r := dropQuotesEnd s' in
      if Ascii.eqb c dquote && String.eqb r "" then "" else String c r
  end.

Definition stripQuotes (s : string) : string := dropQuotesEnd (dropQuotesStart s).

(** Decimal rendering of a natural number, as a template literal renders an
    integer-valued number such as an HTTP status. *)
Definition of_N (n : N) : string := NilEmpty.string_of_uint (N.to_uint n).

End Str.

(* ================================================================== *)
(** ** Numbers *)

Module Num.

Local Open Scope Z_scope.

(** The binary64 number nearest to [(-1)^neg * m * 10^e] (ties to even). *)
Definition of_decimal (neg : bool) (m : Z) (e : Z) : float :=
  SF2Prim
    match m with
    | Zpos p =>
        if 0 <=? e then binary_round prec emax neg (p * Z.to_pos (10 ^ e)) 0
        else SFdiv prec emax (S754_finite neg p 0)
                             (S754_finite false (Z.to_pos (10 ^ (- e))) 0)
    | _ => S754_zero neg
    end.

Definition digit_val (radix : Z) (c : ascii) : option Z :=
  let n := Z.of_N (N_of_ascii c) in
  let d := if (48 <=? n) && (n <=? 57) then Some (n - 48)
           else if (97 <=? n) && (n <=? 102) then Some (n - 87)
           else if (65 <=? n) && (n <=? 70) then Some (n - 55)
           else None in
  match d with
  | Some v => if v <? radix then Some v else None
  | None => None
  end.

(** Read the longest run of digits of the radix at the start of [s]:
    the value read so far, the number of digits, and the rest. *)
Fixpoint digits (radix : Z) (acc : Z) (count : Z) (s : string) : Z * Z * string :=
  match s with
  | EmptyString => (acc, count, s)
  | String c s' =>
      match digit_val radix c with
      | Some v => digits radix (acc * radix + v) (count + 1) s'
      | None => (acc, count, s)
      end
  end.

(** [0x], [0o] and [0b] literals (no sign is allowed before them). *)
Definition non_decimal (s : string) : option float :=
  match s with
  | String "0" (String k rest) =>
      let radix :=
        if (Ascii.eqb k "x" || Ascii.eqb k "X")%bool then Some 16
        else if (Ascii.eqb k "o" || Ascii.eqb k "O")%bool then Some 8
        else if (Ascii.eqb k "b" || Ascii.eqb k "B")%bool then Some 2
        else None in
      match radix with
      | Some r =>
          let '(v, n, rest') := digits r 0 0 rest in
          if (0 <? n) && String.eqb rest' "" then Some (of_decimal false v 0)
          else Some nan
      | None => None
      end
  | _ => None
  end.

Definition sign_of (s : string) : bool * string :=
  match s with
  | String "-" s' => (true, s')
  | String "+" s' => (false, s')
  | _ => (false, s)
  end.

(** The optional exponent part: [Some (e, rest)], or [None] when an ["e"]
    is there without its digits. *)
Definition exponent (s : string) : option (Z * string) :=
  match s with
  | String c s' =>
      if (Ascii.eqb c "e" || Ascii.eqb c "E")%bool then
        let '(neg, s'') := sign_of s' in
        let '(v, n, rest) := digits 10 0 0 s'' in
        if 0 <? n then Some (if neg then - v else v, rest) else None
      else Some (0, s)
  | EmptyString => Some (0, s)
  end.

(** [StrUnsignedDecimalLiteral] other than [Infinity]. *)
Definition decimal (neg : bool) (s : string) : float :=
  let '(ip, ni, s1) := digits 10 0 0 s in
  let '(m, nf, s2) :=
    match s1 with
    | String "." s1' => let '(m, nf, s2) := digits 10 ip 0 s1' in (m, nf, s2)
    | _ => (ip, 0, s1)
    end in
  if (ni + nf =? 0) then nan
  else
    match exponent s2 with
    | Some (e, rest) =>
        if String.eqb rest "" then of_decimal neg m (e - nf) else nan
    | None => nan
    end.

(** [StringToNumber]: what [Number] does to a string. *)
Definition StringToNumber (s : string) : float :=
  let t := Str.trim s in
  if String.eqb t "" then zero
  else
    match non_decimal t with
    | Some x => x
    | None =>
        let '(neg, u) := sign_of t in
        if String.eqb u "Infinity" then (if neg then neg_infinity else infinity)
        else decimal neg u
    end.

(** [Number.isFinite] on a number. *)
Definition isFinite (x : float) : bool := is_finite x.

(** [x > 0]. *)
Definition gt0 (x : float) : bool := PrimFloat.ltb zero x.

(** A number is falsy when it is [0], [-0] or [NaN]. *)
Definition truthy (x : float) : bool := negb (is_zero x || is_nan x).


End Num.

(* ================================================================== *)
(** ** Values, exceptions and coercions of the runtime *)

Module Js.

(** A parsed JSON document.  An object is the list of its own properties;
    the first binding of a key is the property (a later one is shadowed). *)
#[warnings="-register-all"] Inductive json : Type :=
| JNull
| JBool (b : bool)
| JNum (x : float)
| JStr (s : string)
| JArr (items : list json)
| JObj (fields : list (string * json)).

(** A value of the language: [None] is [undefined]. *)
Definition value : Type := option json.

Definition undefined : value := None.
Definition null : value := Some JNull.
Definition num (x : float) : value := Some (JNum x).

(** Error objects: [name] and [message]. *)
Record exn : Type := { name : string; message : string }.

Definition Error (msg : string) : exn := {| name := "Error"; message := msg |}.
Definition TypeError (msg : string) : exn := {| name := "TypeError"; message := msg |}.

(** [Error.prototype.toString], which [String(e)] calls. *)
Definition exn_toString (e : exn) : string :=
  if String.eqb (name e) "" then message e
  else if String.eqb (message e) "" then name e
  else name e ++ ": " ++ message e.

(** [String(x)] for [x] an error object or [null]. *)
Definition String_ (x : option exn) : string :=
  match x with
  | Some e => exn_toString e
  | None => "null"
  end.

(** The result of an evaluation: a value or a thrown exception. *)
Inductive outcome (A : Type) : Type :=
| Val (a : A)
| Exc (e : exn).
Arguments Val {A} a.
Arguments Exc {A} e.

Fixpoint own (k : string) (fs : list (string * json)) : value :=
  match fs with
  | [] => None
  | (k', v) :: rest => if String.eqb k k' then Some v else own k rest
  end.

Definition has_own (k : string) (fs : list (string * json)) : bool :=
  match own k fs with Some _ => true | None => false end.

(** Property read [base.k], for the property names the route reads
    ([streams], [dj], [songtitle], [servertitle], [uniquelisteners],
    [currentlisteners], [streamstatus], [icestats], [source], [listeners],
    [title], [server_name]): none of them is inherited from a prototype, so
    on anything but an object with that own property the read gives
    [undefined]; on [null] and [undefined] it throws. *)
Definition get (base : value) (k : string) : outcome value :=
  match base with
  | None =>
      Exc (TypeError ("Cannot read properties of undefined (reading '" ++ k ++ "')"))
  | Some JNull =>
      Exc (TypeError ("Cannot read properties of null (reading '" ++ k ++ "')"))
  | Some (JObj fs) => Val (own k fs)
  | Some _ => Val undefined
  end.

(** Optional chaining [base?.k]. *)
Definition get_opt (base : value) (k : string) : value :=
  match base with
  | Some (JObj fs) => own k fs
  | _ => undefined
  end.

Definition isArray (v : value) : bool :=
  match v with Some (JArr _) => true | _ => false end.

(** [a.length] of an array. *)
Definition length (v : value) : nat :=
  match v with
  | Some (JArr l) => List.length l
  | _ => 0
  end.

(** [a[0]]. *)
Definition first (v : value) : value :=
  match v with
  | Some (JArr (x :: _)) => Some x
  | _ => undefined
  end.

Definition truthy_json (j : json) : bool :=
  match j with
  | JNull => false
  | JBool b => b
  | JNum x => Num.truthy x
  | JStr s => negb (String.eqb s "")
  | JArr _ | JObj _ => true
  end.

Definition truthy (v : value) : bool :=
  match v with Some j => truthy_json j | None => false end.

(** [null] or [undefined], the operands [??] skips. *)
Definition nullish (v : value) : bool :=
  match v with Some JNull | None => true | _ => false end.

(** [v === null]. *)
Definition is_null (v : value) : bool :=
  match v with Some JNull => true | _ => false end.

(** [a || b], [a && b] and [a ?? b] on values already computed. *)
Definition or_ (a b : value) : value := if truthy a then a else b.

Definition and_ (a b : value) : value := if truthy a then b else a.

Definition coalesce (a b : value) : value := if nullish a then b else a.

(** [v || d] when [d] is not [undefined]. *)
Definition or_json (v : value) (d : json) : json :=
  match v with
  | Some j => if truthy_json j then j else d
  | None => d
  end.

(** *** [Number(v)]

    On an object or an array [Number] goes through [ToPrimitive].  A parsed
    JSON object has no callable property, so an object with an own
    ["toString"] property has nothing to convert it and a [TypeError] is
    thrown; otherwise it prints as ["[object Object]"], which is no number.
    An array prints as its elements joined by commas ([null] printing as
    the empty string), so the exception can also come from an element. *)
Fixpoint toPrimitive_throws (j : json) : bool :=
  match j with
  | JObj fs => has_own "toString" fs
  | JArr l => existsb toPrimitive_throws l
  | _ => false
  end.

(** [Number(String(j))] for an array element [j] that prints without
    exception.  A number prints as a literal that reads back as itself
    ([-0] prints as ["0"]); the text of two or more elements holds a comma
    and is not a numeric literal. *)
Fixpoint number_of_printed (j : json) : float :=
  match j with
  | JNull => zero
  | JBool _ => nan
  | JNum x => if is_zero x then zero else x
  | JStr s => Num.StringToNumber s
  | JArr [] => zero
  | JArr [x] => number_of_printed x
  | JArr _ => nan
  | JObj _ => nan
  end.

Definition Number (v : value) : outcome float :=
  match v with
  | None => Val nan
  | Some JNull => Val zero
  | Some (JBool b) => Val (if b then one else zero)
  | Some (JNum x) => Val x
  | Some (JStr s) => Val (Num.StringToNumber s)
  | Some (JArr l) =>
      if toPrimitive_throws (JArr l)
      then Exc (TypeError "Cannot convert object to primitive value")
      else Val (number_of_printed (JArr l))
  | Some (JObj fs) =>
      if toPrimitive_throws (JObj fs)
      then Exc (TypeError "Cannot convert object to primitive value")
      else Val nan
  end.

(** The JSON value denoted by [JSON.stringify(j)]: a number that is not
    finite is written [null], and [-0] is written [0]. *)
Fixpoint stringify (j : json) : json :=
  match j with
  | JNum x =>
      if is_finite x then (if is_zero x then JNum zero else JNum x) else JNull
  | JArr l => JArr (map stringify l)
  | JObj fs => JObj (map (fun kv => (fst kv, stringify (snd kv))) fs)
  | _ => j
  end.

End Js.

(* ================================================================== *)
(** ** The route *)

Module Route.

Import Js.

(** *** The network, as [GET] observes it *)

(** A response: its HTTP status and what [await res.json()] and
    [await res.text()] give (each may reject). *)
Record Response : Type :=
  { status_code : N;
    json_body : outcome json;
    text_body : outcome string }.

(** [res.ok]: the status is in the range 200-299. *)
Definition ok (res : Response) : bool :=
  ((200 <=? status_code res) && (status_code res <=? 299))%N.

(** What a request to an endpoint ends in: a rejection (connection error,
    or the abort of the timeout) or a response. *)
Inductive fetched : Type :=
| Rejected (e : exn)
| Responded (res : Response).

(** The upstream server: the outcome of a request to each URL. *)
Definition upstream : Type := string -> fetched.

(** *** The local variables of [GET] *)

Inductive Status : Type := online | offline.

Definition Status_str (s : Status) : string :=
  match s with online => "online" | offline => "offline" end.

(** [locutor], [programa], [unicos], [status] and [lastError] are the
    variables declared before the loop; [contacted] lists the URLs requested
    so far, oldest first. *)
Record state : Type :=
  { locutor : value;
    programa : value;
    unicos : option float;
    status : Status;
    lastError : option exn;
    contacted : list string }.

Definition with_locutor (v : value) (s : state) : state :=
  {| locutor := v; programa := programa s; unicos := unicos s; status := status s;
     lastError := lastError s; contacted := contacted s |}.

Definition with_programa (v : value) (s : state) : state :=
  {| locutor := locutor s; programa := v; unicos := unicos s; status := status s;
     lastError := lastError s; contacted := contacted s |}.

Definition with_unicos (x : option float) (s : state) : state :=
  {| locutor := locutor s; programa := programa s; unicos := x; status := status s;
     lastError := lastError s; contacted := contacted s |}.

Definition with_status (x : Status) (s : state) : state :=
  {| locutor := locutor s; programa := programa s; unicos := unicos s; status := x;
     lastError := lastError s; contacted := contacted s |}.

Definition with_lastError (e : option exn) (s : state) : state :=
  {| locutor := locutor s; programa := programa s; unicos := unicos s; status := status s;
     lastError := e; contacted := contacted s |}.

Definition with_contacted (l : list string) (s : state) : state :=
  {| locutor := locutor s; programa := programa s; unicos := unicos s; status := status s;
     lastError := lastError s; contacted := l |}.

(** The state after one more request, to [u]. *)
Definition requested (u : string) (s : state) : state :=
  with_contacted (contacted s ++ [u]) s.

Definition initial : state :=
  {| locutor := null; programa := null; unicos := None; status := offline;
     lastError := None; contacted := [] |}.

(** *** Computations that assign variables and may throw *)

Definition M (A : Type) : Type := state -> outcome A * state.

Definition ret {A} (a : A) : M A := fun s => (Val a, s).

Definition bind {A B} (m : M A) (k : A -> M B) : M B :=
  fun s =>
    match m s with
    | (Val a, s') => k a s'
    | (Exc e, s') => (Exc e, s')
    end.

Definition throw {A} (e : exn) : M A := fun s => (Exc e, s).

Definition lift {A} (o : outcome A) : M A := fun s => (o, s).

(** [try { m } catch (e) { h e }]. *)
Definition try_catch {A} (m : M A) (h : exn -> M A) : M A :=
  fun s =>
    match m s with
    | (Val a, s') => (Val a, s')
    | (Exc e, s') => h e s'
    end.

Declare Scope route_scope.
Delimit Scope route_scope with route.
Notation "x <- m ;; k" := (bind m (fun x => k))
  (at level 61, m at next level, right associativity) : route_scope.
Notation "m ;;; k" := (bind m (fun _ => k))
  (at level 61, right associativity) : route_scope.
Local Open Scope route_scope.

(** [a || b] and [a ?? b]: the right operand is evaluated only if needed. *)
Definition orM (a b : M value) : M value :=
  x <- a ;; if truthy x then ret x else b.

Definition coalesceM (a b : M value) : M value :=
  x <- a ;; if nullish x then b else ret x.

Notation "a '|||' b" := (orM a b) (at level 50, left associativity) : route_scope.
Notation "a '???' b" := (coalesceM a b) (at level 50, left associativity) : route_scope.

(** [a && b]. *)
Definition andM (a b : M value) : M value :=
  x <- a ;; if truthy x then b else ret x.

Notation "a '&&&' b" := (andM a b) (at level 40, left associativity) : route_scope.

(** [base.k], as a computation. *)
Definition prop (base : value) (k : string) : M value := lift (get base k).

Definition set_locutor (v : value) : M unit :=
  fun s => (Val tt, with_locutor v s).

Definition set_programa (v : value) : M unit :=
  fun s => (Val tt, with_programa v s).

Definition set_unicos (x : float) : M unit :=
  fun s => (Val tt, with_unicos (Some x) s).

Definition set_status (x : Status) : M unit :=
  fun s => (Val tt, with_status x s).

Definition set_lastError (e : exn) : M unit :=
  fun s => (Val tt, with_lastError (Some e) s).

Definition read_unicos : M (option float) := fun s => (Val (unicos s), s).

Definition read_state : M state := fun s => (Val s, s).

(** [unicos ?? 0]. *)
Definition or_zero (u : option float) : float :=
  match u with Some x => x | None => zero end.

(** *** [fetchWithTimeout]

    One request to [u]; the timeout is one of the ways the request rejects. *)
Definition fetchWithTimeout (w : upstream) (u : string) : M Response :=
  fun s =>
    match w u with
    | Rejected e => (Exc e, requested u s)
    | Responded res => (Val res, requested u s)
    end.

(** *** The responses of the route *)

Record NextResponse : Type :=
  { http_status : N;
    headers : list (string * string);
    body : json }.

Definition response_headers : list (string * string) :=
  [("Content-Type", "application/json; charset=utf-8");
   ("Access-Control-Allow-Origin", "*")].

(** [body] is the JSON document the text [JSON.stringify(data)] denotes. *)
Definition okJson (data : json) : NextResponse :=
  {| http_status := 200; headers := response_headers; body := stringify data |}.

Definition errorJson (msg : string) (st : N) : NextResponse :=
  {| http_status := st; headers := response_headers;
     body := stringify (JObj [("success", JBool false); ("error", JStr msg)]) |}.

(** *** The candidate endpoints *)

Definition BASE : string := "http://sonicpanel.oficialserver.com:8342".

Definition urls : list string :=
  [BASE ++ "/statistics?json=1";
   BASE ++ "/stats?sid=1&json=1";
   BASE ++ "/stats?json=1";
   BASE ++ "/7.html";
   BASE ++ "/status-json.xsl"]%string.

(** How the body of the loop ends when it does not throw: at a [break], or
    at its end, which goes on with the next URL. *)
Inductive completion : Type := Break | Next.

(** [Number(c ? 1 : 0) === 1 ? "online" : "offline"]. *)
Definition status_of_flag (c : value) : M Status :=
  n <- lift (Number (num (if truthy c then one else zero))) ;;
  ret (if PrimFloat.eqb n one then online else offline).

(** The branch [u.endsWith("statistics?json=1")].  The test
    [Array.isArray(j.streams) && j.streams.length] is true when [j.streams]
    is an array that is not empty: its length is a number, true unless 0. *)
Definition shapeA (res : Response) : M completion :=
  j0 <- lift (json_body res) ;;
  let j : value := Some j0 in
  a <- prop j "streams" ;;
  stream <- (if isArray a && negb (Nat.eqb (length a) 0)
             then b <- prop j "streams" ;; ret (first b)
             else ret j) ;;
  l <- (prop stream "dj" ||| prop j "dj" ||| ret null) ??? ret null ;;
  set_locutor l ;;;
  p <- (prop stream "songtitle" ||| prop stream "servertitle"
        ||| prop j "songtitle" ||| ret null) ??? ret null ;;
  set_programa p ;;;
  n <- (prop stream "uniquelisteners" ??? prop j "uniquelisteners"
        ??? prop stream "currentlisteners" ??? prop j "currentlisteners"
        ??? ret (num zero)) ;;
  x <- lift (Number n) ;;
  set_unicos x ;;;
  c <- (prop stream "streamstatus" ??? prop j "streamstatus"
        ??? (u <- read_unicos ;; ret (Some (JBool (Num.gt0 (or_zero u)))))) ;;
  st <- status_of_flag c ;;
  set_status st ;;;
  ret Break.

(** The branch [u.includes("/stats")]. *)
Definition shapeB (res : Response) : M completion :=
  j0 <- lift (json_body res) ;;
  let j : value := Some j0 in
  l <- (prop j "dj" ||| prop j "songtitle" ||| ret null) ??? ret null ;;
  set_locutor l ;;;
  p <- (prop j "songtitle" ||| prop j "servertitle" ||| ret null) ??? ret null ;;
  set_programa p ;;;
  n <- (prop j "uniquelisteners" ??? prop j "currentlisteners" ??? ret (num zero)) ;;
  x <- lift (Number n) ;;
  set_unicos x ;;;
  c <- (prop j "streamstatus"
        ??? (u <- read_unicos ;; ret (Some (JBool (Num.gt0 (or_zero u)))))) ;;
  st <- status_of_flag c ;;
  set_status st ;;;
  ret Break.

(** The branch [u.endsWith("/7.html")]. *)
Definition shapeC (res : Response) : M completion :=
  txt <- lift (text_body res) ;;
  let parts := Str.split "," (Str.trim (Str.stripTags txt)) in
  if Nat.leb 7 (List.length parts) then
    let current := Num.StringToNumber (hd "" parts) in
    let title := Str.stripQuotes (Str.join "," (skipn 6 parts)) in
    set_locutor null ;;;
    set_programa (Some (or_json (Some (JStr title)) JNull)) ;;;
    set_unicos (if Num.isFinite current then current else zero) ;;;
    set_status (if Num.gt0 current then online else offline) ;;;
    ret Break
  else ret Next.

(** The branch [u.endsWith("status-json.xsl")]. *)
Definition shapeD (res : Response) : M completion :=
  j0 <- lift (json_body res) ;;
  let j : value := Some j0 in
  c <- (ret j &&& prop j "icestats"
        &&& (i <- prop j "icestats" ;; src <- prop i "source" ;;
             ret (Some (JBool (isArray src))))) ;;
  s <- (if truthy c
        then i <- prop j "icestats" ;; src <- prop i "source" ;; ret (first src)
        else ret (get_opt (get_opt j "icestats") "source") ||| ret (get_opt j "source")) ;;
  n <- (ret (get_opt s "listeners") ??? ret (num zero)) ;;
  listeners <- lift (Number n) ;;
  set_locutor null ;;;
  p <- (ret (get_opt s "title") ||| ret (get_opt s "server_name") ||| ret null) ;;
  set_programa p ;;;
  set_unicos listeners ;;;
  set_status (if Num.gt0 listeners then online else offline) ;;;
  ret Break.

(** The four [if]s on the URL: the first two always leave the body (by
    [break] or by an exception), the third falls through to the fourth when
    the text has fewer than 7 fields. *)
Definition parse (u : string) (res : Response) : M completion :=
  if Str.endsWith u "statistics?json=1" then shapeA res
  else if Str.includes u "/stats" then shapeB res
  else
    c <- (if Str.endsWith u "/7.html" then shapeC res else ret Next) ;;
    match c with
    | Break => ret Break
    | Next => if Str.endsWith u "status-json.xsl" then shapeD res else ret Next
    end.

(** The body of the [try] inside the loop, for the URL [u]. *)
Definition attempt (w : upstream) (u : string) : M completion :=
  res <- fetchWithTimeout w u ;;
  (if negb (ok res) then throw (Error ("HTTP " ++ Str.of_N (status_code res)))
   else ret tt) ;;;
  parse u res.

(** One turn of the loop: the [try] and its [catch], which records the
    exception and goes on. *)
Definition turn (w : upstream) (u : string) : M completion :=
  try_catch (attempt w u) (fun e => set_lastError e ;;; ret Next).

(** [for (const u of us) { ... }]. *)
Fixpoint for_of (w : upstream) (us : list string) : M unit :=
  match us with
  | [] => ret tt
  | u :: rest =>
      c <- turn w u ;;
      match c with
      | Break => ret tt
      | Next => for_of w rest
      end
  end.

Definition placeholder : json := JStr "—".

Definition exhaustion_message (lastError : option exn) : string :=
  "Nenhum endpoint do Shoutcast respondeu. Último erro: " ++ String_ lastError.

(** The object passed to [okJson]. *)
Definition envelope (now : string) (s : state) : json :=
  JObj [("success", JBool true);
        ("timestamp", JStr now);
        ("data",
          JObj [("locutor", or_json (locutor s) placeholder);
                ("programa", or_json (programa s) placeholder);
                ("unicos", JNum (or_zero (unicos s)));
                ("status", JStr (Status_str (status s)))])].

Definition exhausted (s : state) : bool :=
  match unicos s with None => true | Some _ => false end
  && is_null (programa s) && is_null (locutor s).

(** The body of the outer [try]; [now] is [new Date().toISOString()]. *)
Definition resolve (w : upstream) (now : string) : M NextResponse :=
  for_of w urls ;;;
  s <- read_state ;;
  (if exhausted s
   then throw (Error (exhaustion_message (lastError s)))
   else ret tt) ;;;
  ret (okJson (envelope now s)).

(** [GET], with the outer [catch]: the response, and the final state (whose
    [contacted] is the list of requests made). *)
Definition GET (w : upstream) (now : string) : NextResponse * state :=
  match resolve w now initial with
  | (Val r, s) => (r, s)
  | (Exc err, s) =>
      (errorJson (if String.eqb (message err) "" then "Erro ao obter status da rádio"
                  else message err) 500, s)
  end.

(** *** Reading the response *)

Definition field (k : string) (j : json) : value := get_opt (Some j) k.

(** A field of the [data] object of the envelope. *)
Definition data_field (k : string) (r : NextResponse) : value :=
  get_opt (field "data" (body r)) k.

Definition is_success (r : NextResponse) : bool :=
  match field "success" (body r) with Some (JBool true) => true | _ => false end.

End Route.

(* ================================================================== *)
(** ** Vocabulary of the properties *)

Module Props.

Import Js Route.

Definition bool_value (b : bool) : value := Some (JBool b).

(** [c ? "online" : "offline"]. *)
Definition online_if (c : bool) : Status := if c then online else offline.

(** The record shape A reads: the first stream if there is one, else the
    payload. *)
Definition stream_of (j : value) : value :=
  if isArray (get_opt j "streams") && negb (Nat.eqb (length (get_opt j "streams")) 0)
  then first (get_opt j "streams") else j.

(** The test of shape D:
    [j && j.icestats && Array.isArray(j.icestats.source)]. *)
Definition source_test_of (j : value) : value :=
  and_ (and_ j (get_opt j "icestats"))
       (bool_value (isArray (get_opt (get_opt j "icestats") "source"))).

(** The record shape D reads. *)
Definition source_of (j : value) : value :=
  if truthy (source_test_of j)
  then first (get_opt (get_opt j "icestats") "source")
  else or_ (get_opt (get_opt j "icestats") "source") (get_opt j "source").

(** The state in which the loop leaves the variables. *)
Definition final (w : upstream) (now : string) : state := snd (GET w now).

(** The response of the route. *)
Definition reply (w : upstream) (now : string) : NextResponse := fst (GET w now).

(** An endpoint gives a usable response when the attempt on it completes
    without exception and leaves a value in one of [locutor], [programa] and
    [unicos]. *)
Definition usable (w : upstream) (u : string) : bool :=
  match attempt w u initial with
  | (Val _, s) => negb (exhausted s)
  | (Exc _, _) => false
  end.

(** The elements of [l] up to and including the first that satisfies [p]. *)
Fixpoint through_first {A} (p : A -> bool) (l : list A) : list A :=
  match l with
  | [] => []
  | x :: rest => if p x then [x] else x :: through_first p rest
  end.

Definition throws {A} (o : outcome A) : Prop :=
  match o with Exc _ => True | Val _ => False end.

(** A transport failure at [u]: the request rejects, or the status is not in
    200-299, or the body cannot be read in the format of the endpoint (text
    for [/7.html], JSON for the others). *)
Definition transport_failure (w : upstream) (u : string) : Prop :=
  match w u with
  | Rejected _ => True
  | Responded res =>
      ok res = false
      \/ (if Str.endsWith u "/7.html" then throws (text_body res)
          else throws (json_body res))
  end.

(** The endpoints by position. *)
Definition endpoint (n : nat) : string := nth n urls "".

(** What a branch may do to the variables, for an outcome [o] and a change
    of state [f] that are the same from every state: it never touches
    [lastError] and [contacted]; when it ends at [break] it has assigned
    [unicos]; when it reaches its end it has changed nothing; when it throws
    it has not assigned [unicos] and [status]. *)
Definition effect (o : outcome completion) (f : state -> state) : Prop :=
  (forall s, lastError (f s) = lastError s /\ contacted (f s) = contacted s)
  /\ match o with
     | Val Break => forall s, unicos (f s) <> None
     | Val Next => forall s, f s = s
     | Exc _ => forall s, unicos (f s) = unicos s /\ status (f s) = status s
     end.

(** The exception an attempt ends in, if any. *)
Definition failure (w : upstream) (u : string) : option exn :=
  match attempt w u initial with
  | (Exc e, _) => Some e
  | (Val _, _) => None
  end.

(** A computation that has the same outcome and makes the same change from
    every state. *)
Definition uniform (m : M completion) : Prop :=
  exists o f, (forall s, m s = (o, f s)) /\ effect o f.

(** The last failure among the attempts on [us], or [prev] if none failed. *)
Definition last_failure (w : upstream) (us : list string) (prev : option exn) : option exn :=
  fold_left (fun acc u => match failure w u with Some e => Some e | None => acc end)
            us prev.

(** The envelope without its [timestamp]. *)
Definition without_timestamp (j : json) : json :=
  match j with
  | JObj fs => JObj (filter (fun kv => negb (String.eqb (fst kv) "timestamp")) fs)
  | _ => j
  end.

(** The property names shapes A and B read. *)
Definition stats_fields : list string :=
  ["streams"; "dj"; "songtitle"; "servertitle"; "uniquelisteners";
   "currentlisteners"; "streamstatus"].

Definition lacks (ks : list string) (fs : list (string * json)) : Prop :=
  forall k, In k ks -> own k fs = None.

(** Strings made of quote characters only, and strings that start or end
    with one. *)
Fixpoint all_quotes (s : string) : bool :=
  match s with
  | EmptyString => true
  | String c rest => Ascii.eqb c Str.dquote && all_quotes rest
  end.

Definition starts_with_quote (s : string) : bool :=
  match s with
  | String c _ => Ascii.eqb c Str.dquote
  | EmptyString => false
  end.

Fixpoint ends_with_quote (s : string) : bool :=
  match s with
  | EmptyString => false
  | String c EmptyString => Ascii.eqb c Str.dquote
  | String _ rest => ends_with_quote rest
  end.

(** Every property name the JSON shapes read. *)
Definition all_fields : list string :=
  stats_fields ++ ["icestats"; "source"; "listeners"; "title"; "server_name"].

(** *** Upstream servers used as examples *)

(** A reading of the clock. *)
Definition noon : string := "2026-01-01T12:00:00.000Z".

Definition q (s : string) : string := String Str.dquote (s ++ String Str.dquote "").

(** A request that fails to connect. *)
Definition down : fetched := Rejected (TypeError "fetch failed").

(** A 200 response whose body is the JSON text [text], denoting [j]. *)
Definition json_response (text : string) (j : json) : Response :=
  {| status_code := 200; json_body := Val j; text_body := Val text |}.

Definition json_reply (text : string) (j : json) : fetched :=
  Responded (json_response text j).

(** A 200 response whose body is a text that is not JSON. *)
Definition text_response (text : string) : Response :=
  {| status_code := 200;
     json_body := Exc {| name := "SyntaxError";
                         message := "Unexpected non-whitespace character after JSON at position 1" |};
     text_body := Val text |}.

Definition text_reply (text : string) : fetched := Responded (text_response text).

(** The server that answers [f] at the [n]-th endpoint and is unreachable at
    the others. *)
Definition only (n : nat) (f : fetched) : upstream :=
  fun u => if String.eqb u (nth n urls "") then f else down.

(** [{"streamstatus":2}] *)
Definition flag_two : fetched :=
  json_reply ("{" ++ q "streamstatus" ++ ":2}") (JObj [("streamstatus", JNum 2)]).

(** [{"streamstatus":"live"}] *)
Definition flag_text : fetched :=
  json_reply ("{" ++ q "streamstatus" ++ ":" ++ q "live" ++ "}")
             (JObj [("streamstatus", JStr "live")]).

(** [{"songtitle":"Song X"}]: no [dj]. *)
Definition song_only : fetched :=
  json_reply ("{" ++ q "songtitle" ++ ":" ++ q "Song X" ++ "}")
             (JObj [("songtitle", JStr "Song X")]).




(** [{"dj":"","songtitle":"","servertitle":""}] *)
Definition empty_names : fetched :=
  json_reply ("{" ++ q "dj" ++ ":" ++ q "" ++ "," ++ q "songtitle" ++ ":" ++ q ""
              ++ "," ++ q "servertitle" ++ ":" ++ q "" ++ "}")
             (JObj [("dj", JStr ""); ("songtitle", JStr ""); ("servertitle", JStr "")]).

(** [{"dj":"Ana","uniquelisteners":{"toString":1}}]: the listener count is an
    object that [Number] cannot convert. *)
Definition unconvertible_count : fetched :=
  json_reply ("{" ++ q "dj" ++ ":" ++ q "Ana" ++ "," ++ q "uniquelisteners" ++ ":{"
              ++ q "toString" ++ ":1}}")
             (JObj [("dj", JStr "Ana"); ("uniquelisteners", JObj [("toString", JNum 1)])]).

(** [{"streams":[{"dj":null,"uniquelisteners":0}],"dj":"DJ Mike"}] *)
Definition stream_without_dj : fetched :=
  json_reply ("{" ++ q "streams" ++ ":[{" ++ q "dj" ++ ":null," ++ q "uniquelisteners"
              ++ ":0}]," ++ q "dj" ++ ":" ++ q "DJ Mike" ++ "}")
             (JObj [("streams", JArr [JObj [("dj", JNull); ("uniquelisteners", JNum 0)]]);
                    ("dj", JStr "DJ Mike")]).

(** The body [null]. *)
Definition null_body : fetched := json_reply "null" JNull.

(** [{}] *)
Definition empty_object : fetched := json_reply "{}" (JObj []).

(** The legacy text of the comment in the source, and one whose first field
    is not finite. *)
Definition legacy_text : fetched := text_reply "2,10,100,0,128,0,Song - Artist".

Definition legacy_infinite : fetched := text_reply "Infinity,10,100,0,128,0,Song - Artist".


(** *** The listener count an attempt reads *)



End Props.

(* ================================================================== *)
(** ** The rest of the route, and more vocabulary *)

Module More.

Import Js Route Props.

(** A response built with no body, [new NextResponse(null, ...)]. *)
Record BareResponse : Type :=
  { bare_status : N;
    bare_headers : list (string * string) }.

(** The pre-flight handler. *)
Definition OPTIONS : BareResponse :=
  {| bare_status := 200;
     bare_headers :=
       [("Access-Control-Allow-Origin", "*");
        ("Access-Control-Allow-Methods", "GET, OPTIONS");
        ("Access-Control-Allow-Headers", "Content-Type")] |}.

(** The value of a header. *)
Fixpoint header (k : string) (hs : list (string * string)) : option string :=
  match hs with
  | [] => None
  | (k', v) :: rest => if String.eqb k k' then Some v else header k rest
  end.

(** A variable that holds [null] or a value that is true: what
    [(a || b || null) ?? null] can leave. *)
Definition settled (v : value) : Prop := v = null \/ truthy v = true.

Definition settled_names (s : state) : Prop :=
  settled (locutor s) /\ settled (programa s).

(** An online status comes with a listener count. *)
Definition counted (s : state) : Prop :=
  status s = online -> unicos s <> None.

(** What the envelope shows for a name. *)
Definition shown (v : value) : json :=
  match v with
  | Some JNull | None => placeholder
  | Some j => stringify j
  end.

(** Whether [/<[^>]+>/] matches somewhere in [s]. *)
Fixpoint has_tag (s : string) : bool :=
  match Str.match_tag s with
  | Some _ => true
  | None =>
      match s with
      | EmptyString => false
      | String _ s' => has_tag s'
      end
  end.

(** The number of occurrences of a character. *)
Fixpoint count (c : ascii) (s : string) : nat :=
  match s with
  | EmptyString => 0
  | String d s' => (if Ascii.eqb d c then 1 else 0) + count c s'
  end.

(** The text [f0,f1,...,fn,rest] of the fields [fs] followed by [rest]. *)
Fixpoint fields_then (fs : list string) (rest : string) : string :=
  match fs with
  | [] => rest
  | f :: fs' => f ++ String "," (fields_then fs' rest)
  end.

(** Whether [Number] throws on a value. *)
Definition unconvertible (v : value) : bool :=
  match v with
  | Some j => toPrimitive_throws j
  | None => false
  end.

(** A payload at whose top level shape A reads: [streams] is not an array
    with an element. *)
Definition flat (j : value) : bool :=
  negb (isArray (get_opt j "streams") && negb (Nat.eqb (length (get_opt j "streams")) 0)).

(** [{"streams":[{"currentlisteners":7}],"uniquelisteners":3}] *)
Definition mixed_counts : json :=
  JObj [("streams", JArr [JObj [("currentlisteners", JNum 7)]]);
        ("uniquelisteners", JNum 3)].

Definition mixed_counts_text : string :=
  "{" ++ q "streams" ++ ":[{" ++ q "currentlisteners" ++ ":7}]," ++ q "uniquelisteners"
  ++ ":3}".

(** [{"streams":[null,{"dj":"Ana"}]}] and [{"streams":[null]}] *)
Definition null_then_ana : Response :=
  json_response ("{" ++ q "streams" ++ ":[null,{" ++ q "dj" ++ ":" ++ q "Ana" ++ "}]}")
                (JObj [("streams", JArr [JNull; JObj [("dj", JStr "Ana")]])]).

Definition null_stream : Response :=
  json_response ("{" ++ q "streams" ++ ":[null]}") (JObj [("streams", JArr [JNull])]).

(** [{"dj":"Top","streams":[{"uniquelisteners":4},{"dj":"Ana"}]}] and
    [{"dj":"Top","streams":[{"uniquelisteners":4}]}]: [streams] is not the
    first key. *)
Definition two_streams : Response :=
  json_response ("{" ++ q "dj" ++ ":" ++ q "Top" ++ "," ++ q "streams" ++ ":[{"
                 ++ q "uniquelisteners" ++ ":4},{" ++ q "dj" ++ ":" ++ q "Ana" ++ "}]}")
                (JObj [("dj", JStr "Top");
                       ("streams", JArr [JObj [("uniquelisteners", JNum 4)];
                                         JObj [("dj", JStr "Ana")]])]).

Definition one_stream : Response :=
  json_response ("{" ++ q "dj" ++ ":" ++ q "Top" ++ "," ++ q "streams" ++ ":[{"
                 ++ q "uniquelisteners" ++ ":4}]}")
                (JObj [("dj", JStr "Top");
                       ("streams", JArr [JObj [("uniquelisteners", JNum 4)]])]).

(** [{"uniquelisteners":[{"toString":null}]}] *)
Definition unconvertible_list : json :=
  JObj [("uniquelisteners", JArr [JObj [("toString", JNull)]])].

Definition unconvertible_list_response : Response :=
  json_response ("{" ++ q "uniquelisteners" ++ ":[{" ++ q "toString" ++ ":null}]}")
                unconvertible_list.

(** What shape D resolves from the record [v] it has located. *)
Definition source_reading (v : value) (s : state) : outcome completion * state :=
  match Number (coalesce (get_opt v "listeners") (num zero)) with
  | Exc e => (Exc e, s)
  | Val x =>
      (Val Break,
       with_status (online_if (Num.gt0 x))
         (with_unicos (Some x)
            (with_programa (or_ (or_ (get_opt v "title") (get_opt v "server_name")) null)
               (with_locutor null s))))
  end.

(** [{"icestats":{"source":[]},"source":{"listeners":9}}] *)
Definition empty_sources : Response :=
  json_response ("{" ++ q "icestats" ++ ":{" ++ q "source" ++ ":[]}," ++ q "source" ++ ":{"
                 ++ q "listeners" ++ ":9}}")
                (JObj [("icestats", JObj [("source", JArr [])]);
                       ("source", JObj [("listeners", JNum 9)])]).

(** [{"source":{"listeners":9}}]: no [icestats]. *)
Definition top_level_source : Response :=
  json_response ("{" ++ q "source" ++ ":{" ++ q "listeners" ++ ":9}}")
                (JObj [("source", JObj [("listeners", JNum 9)])]).

(** [{"icestats":{"source":{"listeners":{"toString":0}}}}] *)
Definition unconvertible_listeners : Response :=
  json_response ("{" ++ q "icestats" ++ ":{" ++ q "source" ++ ":{" ++ q "listeners" ++ ":{"
                 ++ q "toString" ++ ":0}}}}")
                (JObj [("icestats",
                        JObj [("source", JObj [("listeners", JObj [("toString", JNum 0)])])])]).

(** A 404 answer with an HTML body. *)
Definition not_found : fetched :=
  Responded {| status_code := 404;
               json_body := Exc {| name := "SyntaxError";
                                   message := "Unexpected token < in JSON at position 0" |};
               text_body := Val "<html>Not Found</html>" |}.

(** *** Pages around a legacy text *)

(** The text of the tags [<m1><m2>...] with the contents [ms]. *)
Fixpoint tags (ms : list string) : string :=
  match ms with
  | [] => ""
  | m :: rest => String "<" (m ++ String ">" (tags rest))
  end.

(** The content of a tag: not empty, and without [">"]. *)
Definition tag_content (m : string) : bool :=
  negb (String.eqb m "") && Nat.eqb (count ">" m) 0.

(** A text of one-byte white space (TAB, LF, VT, FF, CR, SP). *)
Fixpoint blank (s : string) : bool :=
  match s with
  | EmptyString => true
  | String c s' => Str.ws1 (Str.code c) && blank s'
  end.

(** An ASCII character that is not white space. *)
Definition solid (c : ascii) : bool :=
  negb (Str.ws1 (Str.code c)) && (Str.code c <? 128)%N.

Definition starts_solid (s : string) : bool :=
  match s with
  | String c _ => solid c
  | EmptyString => false
  end.

Definition ends_solid (s : string) : bool := starts_solid (Str.rev s).

Definition newline : string := String (Str.chr 10) "".

(** The legacy text of the source's comment as a server sends it: in a page,
    the title in quotes, a line end after the markup. *)
Definition legacy_page_text : string :=
  "<html><body>2,10,100,0,128,0," ++ q "Song - Artist" ++ "</body></html>" ++ newline.

Definition legacy_page : fetched := text_reply legacy_page_text.

End More.

(* ================================================================== *)
(** * Properties *)

Import Js Route Props.
Local Open Scope string_scope.
Local Open Scope route_scope.

(** Closed facts are settled by evaluation, one conjunct at a time. *)
Ltac evaluate := repeat apply conj; vm_compute; reflexivity.

(** ** Evaluation of the monadic operators *)

Lemma bind_ret {A B} (a : A) (k : A -> M B) : bind (ret a) k = k a.
Proof. reflexivity. Qed.

Lemma bind_throw {A B} (e : exn) (k : A -> M B) : bind (throw e) k = throw e.
Proof. reflexivity. Qed.

Lemma lift_Val {A} (a : A) : lift (Val a) = ret a.
Proof. reflexivity. Qed.

Lemma lift_Exc {A} (e : exn) : @lift A (Exc e) = throw e.
Proof. reflexivity. Qed.

Lemma get_present base k : nullish base = false -> get base k = Val (get_opt base k).
Proof. destruct base as [[]|]; simpl; intros; congruence. Qed.

Lemma truthy_present v : truthy v = true -> nullish v = false.
Proof. destruct v as [[]|]; simpl; congruence. Qed.

Lemma prop_present base k : nullish base = false -> prop base k = ret (get_opt base k).
Proof. intros H. unfold prop. rewrite (get_present _ _ H). reflexivity. Qed.

Lemma orM_ret a b : orM (ret a) (ret b) = ret (or_ a b).
Proof. unfold orM, or_. rewrite bind_ret. destruct (truthy a); reflexivity. Qed.

Lemma coalesceM_ret a b : coalesceM (ret a) (ret b) = ret (coalesce a b).
Proof. unfold coalesceM, coalesce. rewrite bind_ret. destruct (nullish a); reflexivity. Qed.

Lemma coalesceM_ret_l a b : coalesceM (ret a) b = if nullish a then b else ret a.
Proof. reflexivity. Qed.

Lemma andM_ret_l a b : andM (ret a) b = if truthy a then b else ret a.
Proof. reflexivity. Qed.

Lemma status_of_flag_ret c : status_of_flag c = ret (online_if (truthy c)).
Proof. unfold status_of_flag. destruct (truthy c); reflexivity. Qed.

(** [(x || null) ?? null] is [x || null]. *)
Lemma coalesce_or_null a : coalesce (or_ a null) null = or_ a null.
Proof.
  unfold or_. destruct (truthy a) eqn:E; unfold coalesce.
  - now rewrite (truthy_present _ E).
  - reflexivity.
Qed.

(** The end of shapes A and B, once the flag expression is evaluated. *)
Lemma status_tail (m : M value) c0 s :
  m s = (Val c0, s) ->
  (c <- m ;; st <- status_of_flag c ;; set_status st ;;; ret Break) s
  = (Val Break, with_status (online_if (truthy c0)) s).
Proof.
  intros Hm. unfold bind at 1. rewrite Hm, status_of_flag_ret. reflexivity.
Qed.

(** [flag ?? (unicos ?? 0) > 0], once [unicos] is assigned. *)
Lemma flag_or_count F x s :
  unicos s = Some x ->
  (ret F ??? (u <- read_unicos ;; ret (Some (JBool (Num.gt0 (or_zero u)))))) s
  = (Val (coalesce F (bool_value (Num.gt0 x))), s).
Proof.
  intros Hx. rewrite coalesceM_ret_l. unfold coalesce.
  destruct (nullish F); [|reflexivity].
  unfold bind, read_unicos. rewrite Hx. reflexivity.
Qed.

Ltac pure_reads H :=
  rewrite ?(prop_present _ _ H), ?orM_ret, ?coalesceM_ret.

(** ** The removal of markup needs no more steps than characters *)

Lemma after_gt_shorter s r :
  Str.after_gt s = Some r -> String.length r < String.length s.
Proof.
  induction s as [|c s IH]; cbn [Str.after_gt]; [discriminate|].
  destruct (Ascii.eqb c ">").
  - clear IH. intros E. injection E as <-. cbn. lia.
  - intros E. apply IH in E. cbn. lia.
Qed.

Lemma match_tag_shorter s r :
  Str.match_tag s = Some r -> String.length r < String.length s.
Proof.
  destruct s as [|a [|c s]]; cbn [Str.match_tag]; try discriminate.
  destruct (Ascii.eqb a "<" && negb (Ascii.eqb c ">")); [|discriminate].
  intros E. apply after_gt_shorter in E. cbn. lia.
Qed.

Lemma replace_tags_fuel n :
  forall m s, String.length s <= n -> String.length s <= m ->
              Str.replace_tags n s = Str.replace_tags m s.
Proof.
  induction n as [|n IH]; intros m s Hn Hm.
  - destruct s; [now destruct m|cbn in Hn; lia].
  - destruct s as [|c s]; [now destruct m|].
    destruct m as [|m]; [cbn in Hm; lia|].
    cbn [Str.replace_tags String.length] in *.
    destruct (Str.match_tag (String c s)) as [r|] eqn:T.
    + apply match_tag_shorter in T. cbn [String.length] in T. apply IH; lia.
    + f_equal. apply IH; lia.
Qed.

(** [stripTags] does not depend on the bound it gives to the scan. *)
Lemma stripTags_any_fuel n s :
  String.length s <= n -> Str.replace_tags n s = Str.stripTags s.
Proof. intros H. unfold Str.stripTags. now apply replace_tags_fuel. Qed.

(** ** The four branches in closed form *)

Lemma shapeB_unparsed res e s : json_body res = Exc e -> shapeB res s = (Exc e, s).
Proof. intros H. unfold shapeB. rewrite H. reflexivity. Qed.

Lemma shapeB_null res s :
  json_body res = Val JNull ->
  shapeB res s = (Exc (TypeError "Cannot read properties of null (reading 'dj')"), s).
Proof. intros H. unfold shapeB. rewrite H. reflexivity. Qed.

Lemma shapeB_run res j0 s :
  json_body res = Val j0 -> j0 <> JNull ->
  let j := Some j0 in
  let l := coalesce (or_ (or_ (get_opt j "dj") (get_opt j "songtitle")) null) null in
  let p := coalesce (or_ (or_ (get_opt j "songtitle") (get_opt j "servertitle")) null) null in
  let n := coalesce (coalesce (get_opt j "uniquelisteners") (get_opt j "currentlisteners"))
                    (num zero) in
  shapeB res s =
  match Number n with
  | Exc e => (Exc e, with_programa p (with_locutor l s))
  | Val x =>
      (Val Break,
       with_status
         (online_if (truthy (coalesce (get_opt j "streamstatus") (bool_value (Num.gt0 x)))))
         (with_unicos (Some x) (with_programa p (with_locutor l s))))
  end.
Proof.
  intros H Hj j l p n.
  assert (Hn : nullish j = false) by (destruct j0; simpl; congruence).
  unfold shapeB. rewrite H, lift_Val, bind_ret. fold j.
  pure_reads Hn. rewrite !bind_ret. fold l p n.
  unfold bind at 1. unfold set_locutor at 1. unfold bind at 1. unfold set_programa at 1.
  destruct (Number n) as [x|e]; [|reflexivity].
  rewrite lift_Val, bind_ret. unfold bind at 1. unfold set_unicos at 1.
  apply status_tail.
  apply flag_or_count. reflexivity.
Qed.

Lemma shapeA_unparsed res e s : json_body res = Exc e -> shapeA res s = (Exc e, s).
Proof. intros H. unfold shapeA. rewrite H. reflexivity. Qed.

Lemma shapeA_null res s :
  json_body res = Val JNull ->
  shapeA res s = (Exc (TypeError "Cannot read properties of null (reading 'streams')"), s).
Proof. intros H. unfold shapeA. rewrite H. reflexivity. Qed.


Lemma shapeA_stream_null res j0 s :
  json_body res = Val j0 -> j0 <> JNull -> nullish (stream_of (Some j0)) = true ->
  shapeA res s = (Exc (TypeError "Cannot read properties of null (reading 'dj')"), s).
Proof.
  intros H Hj Hs.
  assert (Hn : nullish (Some j0) = false) by (destruct j0; simpl; congruence).
  unfold shapeA. rewrite H, lift_Val, bind_ret.
  rewrite !(prop_present _ _ Hn), !bind_ret.
  unfold stream_of in Hs.
  destruct (isArray (get_opt (Some j0) "streams") && _)%bool eqn:E.
  - rewrite !bind_ret.
    destruct (get_opt (Some j0) "streams") as [[| | | |[|x l]|]|]; simpl in E, Hs; try discriminate.
    destruct x; try discriminate. reflexivity.
  - congruence.
Qed.

Lemma shapeA_run res j0 s :
  json_body res = Val j0 -> j0 <> JNull -> nullish (stream_of (Some j0)) = false ->
  let j := Some j0 in
  let stream := stream_of j in
  let l := coalesce (or_ (or_ (get_opt stream "dj") (get_opt j "dj")) null) null in
  let p := coalesce (or_ (or_ (or_ (get_opt stream "songtitle") (get_opt stream "servertitle"))
                              (get_opt j "songtitle")) null) null in
  let n := coalesce (coalesce (coalesce (coalesce (get_opt stream "uniquelisteners")
                                                  (get_opt j "uniquelisteners"))
                                        (get_opt stream "currentlisteners"))
                              (get_opt j "currentlisteners"))
                    (num zero) in
  shapeA res s =
  match Number n with
  | Exc e => (Exc e, with_programa p (with_locutor l s))
  | Val x =>
      (Val Break,
       with_status
         (online_if (truthy (coalesce (coalesce (get_opt stream "streamstatus")
                                                (get_opt j "streamstatus"))
                                      (bool_value (Num.gt0 x)))))
         (with_unicos (Some x) (with_programa p (with_locutor l s))))
  end.
Proof.
  intros H Hj Hs j stream l p n.
  assert (Hn : nullish j = false) by (destruct j0; simpl; congruence).
  unfold shapeA. rewrite H, lift_Val, bind_ret. fold j.
  rewrite !(prop_present _ _ Hn), !bind_ret.
  cbv beta.
  assert (E : forall c : bool,
             (if c then ret (first (get_opt j "streams")) else ret j)
             = ret (if c then first (get_opt j "streams") else j))
    by (intros []; reflexivity).
  rewrite E, bind_ret. fold (stream_of j). fold stream. clear E.
  pure_reads Hs. pure_reads Hn. rewrite !bind_ret.
  change (stream_of (Some j0)) with stream. fold l p n.
  unfold bind at 1. unfold set_locutor at 1. unfold bind at 1. unfold set_programa at 1.
  destruct (Number n) as [x|e]; [|reflexivity].
  rewrite lift_Val, bind_ret. unfold bind at 1. unfold set_unicos at 1.
  apply status_tail.
  apply flag_or_count. reflexivity.
Qed.

Lemma shapeC_unread res e s : text_body res = Exc e -> shapeC res s = (Exc e, s).
Proof. intros H. unfold shapeC. rewrite H. reflexivity. Qed.

Lemma shapeC_run res txt s :
  text_body res = Val txt ->
  let parts := Str.split "," (Str.trim (Str.stripTags txt)) in
  let current := Num.StringToNumber (hd "" parts) in
  let title := Str.stripQuotes (Str.join "," (skipn 6 parts)) in
  shapeC res s =
  if Nat.leb 7 (List.length parts)
  then (Val Break,
        with_status (online_if (Num.gt0 current))
          (with_unicos (Some (if Num.isFinite current then current else zero))
             (with_programa (if String.eqb title "" then null else Some (JStr title))
                (with_locutor null s))))
  else (Val Next, s).
Proof.
  intros H parts current title. unfold shapeC. rewrite H, lift_Val, bind_ret.
  fold parts. destruct (Nat.leb 7 (List.length parts)); [|reflexivity].
  fold current title. unfold or_json, truthy_json.
  destruct (String.eqb title ""); reflexivity.
Qed.

Lemma shapeD_unparsed res e s : json_body res = Exc e -> shapeD res s = (Exc e, s).
Proof. intros H. unfold shapeD. rewrite H. reflexivity. Qed.

Lemma source_test j :
  (ret j &&& prop j "icestats"
   &&& (i <- prop j "icestats" ;; src <- prop i "source" ;; ret (Some (JBool (isArray src)))))
  = ret (source_test_of j).
Proof.
  unfold source_test_of.
  rewrite andM_ret_l. unfold and_ at 2.
  destruct (truthy j) eqn:Tj.
  - rewrite !(prop_present _ _ (truthy_present _ Tj)), andM_ret_l, bind_ret. unfold and_.
    destruct (truthy (get_opt j "icestats")) eqn:Ti; [|reflexivity].
    now rewrite (prop_present _ _ (truthy_present _ Ti)), bind_ret.
  - rewrite andM_ret_l. unfold and_. now rewrite Tj.
Qed.

Lemma source_test_true j :
  truthy (source_test_of j) = true ->
  truthy j = true /\ truthy (get_opt j "icestats") = true.
Proof.
  unfold source_test_of, and_.
  destruct (truthy j) eqn:Tj; [|repeat (cbv iota; try rewrite Tj); discriminate].
  destruct (truthy (get_opt j "icestats")) eqn:Ti;
    [tauto|repeat (cbv iota; try rewrite Ti); discriminate].
Qed.

Lemma source_pick j :
  (if truthy (source_test_of j)
   then i <- prop j "icestats" ;; src <- prop i "source" ;; ret (first src)
   else ret (get_opt (get_opt j "icestats") "source") ||| ret (get_opt j "source"))
  = ret (source_of j).
Proof.
  unfold source_of.
  destruct (truthy (source_test_of j)) eqn:T; [|apply orM_ret].
  destruct (source_test_true _ T) as [Tj Ti].
  now rewrite (prop_present _ _ (truthy_present _ Tj)), bind_ret,
    (prop_present _ _ (truthy_present _ Ti)), bind_ret.
Qed.

Lemma shapeD_run res j0 s :
  json_body res = Val j0 ->
  let src := source_of (Some j0) in
  let n := coalesce (get_opt src "listeners") (num zero) in
  let p := or_ (or_ (get_opt src "title") (get_opt src "server_name")) null in
  shapeD res s =
  match Number n with
  | Exc e => (Exc e, s)
  | Val x =>
      (Val Break,
       with_status (online_if (Num.gt0 x))
         (with_unicos (Some x) (with_programa p (with_locutor null s))))
  end.
Proof.
  intros H src n p. unfold shapeD. rewrite H, lift_Val, bind_ret.
  rewrite source_test, bind_ret.
  rewrite source_pick, bind_ret. fold src.
  rewrite !coalesceM_ret, !orM_ret, !bind_ret. fold n p.
  destruct (Number n) as [x|e]; reflexivity.
Qed.

(** ** Every branch acts in the same way from every state *)


Lemma uniform_next : uniform (ret Next).
Proof. exists (Val Next), (fun s => s). repeat split. Qed.

Ltac by_cases_uniform o f :=
  exists o, f; split; [intros s; try reflexivity | repeat split; try discriminate].

Lemma shapeA_uniform res : uniform (shapeA res).
Proof.
  destruct (json_body res) as [j0|e] eqn:H.
  2:{ by_cases_uniform (@Exc completion e) (fun s : state => s). now apply shapeA_unparsed. }
  destruct (match j0 with JNull => true | _ => false end) eqn:N.
  { destruct j0; try discriminate.
    by_cases_uniform
      (@Exc completion (TypeError "Cannot read properties of null (reading 'streams')"))
      (fun s : state => s).
    now apply shapeA_null. }
  assert (Hj : j0 <> JNull) by (intros ->; discriminate).
  destruct (nullish (stream_of (Some j0))) eqn:S.
  { by_cases_uniform
      (@Exc completion (TypeError "Cannot read properties of null (reading 'dj')"))
      (fun s : state => s).
    now apply shapeA_stream_null with j0. }
  pose proof (fun s => shapeA_run res j0 s H Hj S) as R. cbv zeta in R.
  destruct (Number _) as [x|e];
    eexists _, _; (split; [exact R|]); repeat split; discriminate.
Qed.

Lemma shapeB_uniform res : uniform (shapeB res).
Proof.
  destruct (json_body res) as [j0|e] eqn:H.
  2:{ by_cases_uniform (@Exc completion e) (fun s : state => s). now apply shapeB_unparsed. }
  destruct (match j0 with JNull => true | _ => false end) eqn:N.
  { destruct j0; try discriminate.
    by_cases_uniform
      (@Exc completion (TypeError "Cannot read properties of null (reading 'dj')"))
      (fun s : state => s).
    now apply shapeB_null. }
  assert (Hj : j0 <> JNull) by (intros ->; discriminate).
  pose proof (fun s => shapeB_run res j0 s H Hj) as R. cbv zeta in R.
  destruct (Number _) as [x|e];
    eexists _, _; (split; [exact R|]); repeat split; discriminate.
Qed.

Lemma shapeC_uniform res : uniform (shapeC res).
Proof.
  destruct (text_body res) as [txt|e] eqn:H.
  2:{ by_cases_uniform (@Exc completion e) (fun s : state => s). now apply shapeC_unread. }
  pose proof (fun s => shapeC_run res txt s H) as R. cbv zeta in R.
  destruct (Nat.leb 7 _);
    eexists _, _; (split; [exact R|]); repeat split; discriminate.
Qed.

Lemma shapeD_uniform res : uniform (shapeD res).
Proof.
  destruct (json_body res) as [j0|e] eqn:H.
  2:{ by_cases_uniform (@Exc completion e) (fun s : state => s). now apply shapeD_unparsed. }
  pose proof (fun s => shapeD_run res j0 s H) as R. cbv zeta in R.
  destruct (Number _) as [x|e];
    eexists _, _; (split; [exact R|]); repeat split; discriminate.
Qed.

Lemma parse_uniform u res : uniform (parse u res).
Proof.
  unfold parse.
  destruct (Str.endsWith u "statistics?json=1"); [apply shapeA_uniform|].
  destruct (Str.includes u "/stats"); [apply shapeB_uniform|].
  destruct (Str.endsWith u "/7.html").
  - destruct (shapeC_uniform res) as (o & f & R & E).
    destruct o as [[]|e].
    + exists (Val Break), f. split; [|exact E]. intros s. unfold bind. now rewrite R.
    + destruct E as [K Hid].
      destruct (Str.endsWith u "status-json.xsl").
      * destruct (shapeD_uniform res) as (o' & f' & R' & E').
        exists o', f'. split; [|exact E'].
        intros s. unfold bind. now rewrite R, Hid, R'.
      * exists (Val Next), f. split; [|now split].
        intros s. unfold bind. now rewrite R.
    + exists (Exc e), f. split; [|exact E]. intros s. unfold bind. now rewrite R.
  - rewrite bind_ret.
    destruct (Str.endsWith u "status-json.xsl"); [apply shapeD_uniform|apply uniform_next].
Qed.

(** ** The loop *)

Section Loop.

Variable w : upstream.

(** An attempt is one request followed by a uniform action. *)
Lemma attempt_uniform u :
  exists o f, (forall s, attempt w u s = (o, f (requested u s))) /\ effect o f.
Proof.
  unfold attempt, fetchWithTimeout.
  destruct (w u) as [e|res].
  - exists (Exc e), (fun s => s). repeat split.
  - destruct (ok res) eqn:K.
    + destruct (parse_uniform u res) as (o & f & R & E).
      exists o, f. split; [|exact E]. intros s. unfold bind. rewrite K. apply R.
    + eexists (Exc _), (fun s => s).
      split; [intros s; unfold bind; rewrite K; reflexivity|repeat split].
Qed.


Lemma usable_outcome u o f :
  (forall s, attempt w u s = (o, f (requested u s))) -> effect o f ->
  usable w u = match o with Val Break => true | _ => false end.
Proof.
  intros R [K E]. unfold usable. rewrite R.
  destruct o as [[]|e]; [| |reflexivity].
  - unfold exhausted. specialize (E (requested u initial)).
    destruct (unicos _); [reflexivity|congruence].
  - now rewrite E.
Qed.

Lemma failure_outcome u o f :
  (forall s, attempt w u s = (o, f (requested u s))) ->
  failure w u = match o with Exc e => Some e | Val _ => None end.
Proof. intros R. unfold failure. rewrite R. now destruct o. Qed.

Lemma turn_run u o f s :
  (forall s, attempt w u s = (o, f (requested u s))) ->
  turn w u s =
  match o with
  | Val c => (Val c, f (requested u s))
  | Exc e => (Val Next, with_lastError (Some e) (f (requested u s)))
  end.
Proof. intros R. unfold turn, try_catch. rewrite R. now destruct o. Qed.

(** The loop never throws; it requests the URLs in order up to the first
    usable one, and [lastError] holds the last failure met on the way. *)
Lemma for_of_run us :
  forall s,
    fst (for_of w us s) = Val tt
    /\ contacted (snd (for_of w us s)) = (contacted s ++ through_first (usable w) us)%list
    /\ lastError (snd (for_of w us s))
       = last_failure w (through_first (usable w) us) (lastError s)
    /\ (exhausted (snd (for_of w us s)) = true -> forall u, In u us -> usable w u = false).
Proof.
  induction us as [|u us IH]; intros s.
  - simpl. rewrite app_nil_r. repeat split; intros _ u [].
  - destruct (attempt_uniform u) as (o & f & R & E).
    pose proof (usable_outcome _ _ _ R E) as U.
    pose proof (failure_outcome _ _ _ R) as F.
    pose proof (turn_run u o f s R) as T.
    destruct E as [K E].
    destruct (K (requested u s)) as [KL KC].
    cbn [for_of through_first]. unfold bind. rewrite T, U.
    destruct o as [[]|e]; cbn [fst snd].
    + split; [reflexivity|split; [|split]].
      * cbn [ret snd]. rewrite KC. reflexivity.
      * cbn [ret snd]. unfold last_failure. cbn [fold_left]. now rewrite F, KL.
      * cbn [ret snd]. intros X. exfalso. unfold exhausted in X.
        specialize (E (requested u s)). destruct (unicos _); [discriminate X|congruence].
    + destruct (IH (f (requested u s))) as (I1 & I2 & I3 & I4).
      split; [exact I1|split; [|split]].
      * rewrite I2, KC. cbn [requested with_contacted contacted]. now rewrite <- app_assoc.
      * rewrite I3, KL. unfold last_failure. cbn [fold_left]. now rewrite F.
      * intros X v [<-|Hv]; [exact U|now apply I4].
    + destruct (IH (with_lastError (Some e) (f (requested u s)))) as (I1 & I2 & I3 & I4).
      split; [exact I1|split; [|split]].
      * rewrite I2. cbn [contacted with_lastError]. rewrite KC.
        cbn [requested with_contacted contacted]. now rewrite <- app_assoc.
      * rewrite I3. unfold last_failure. cbn [fold_left lastError with_lastError].
        now rewrite F.
      * intros X v [<-|Hv]; [exact U|now apply I4].
Qed.

(** [GET] after the loop. *)
Lemma GET_run now :
  let s := snd (for_of w urls initial) in
  GET w now =
  if exhausted s
  then (errorJson (exhaustion_message (lastError s)) 500, s)
  else (okJson (envelope now s), s).
Proof.
  intros s. unfold GET, resolve.
  destruct (for_of_run urls initial) as [V _].
  unfold bind at 1. fold s.
  destruct (for_of w urls initial) as [o s'] eqn:L. cbn in V, s. subst o s.
  unfold read_state, bind, ret, throw.
  destruct (exhausted s'); reflexivity.
Qed.

Lemma final_run now : final w now = snd (for_of w urls initial).
Proof. unfold final. rewrite GET_run. cbv zeta. now destruct (exhausted _). Qed.

Lemma reply_run now :
  reply w now =
  if exhausted (final w now)
  then errorJson (exhaustion_message (lastError (final w now))) 500
  else okJson (envelope now (final w now)).
Proof. rewrite final_run. unfold reply. rewrite GET_run. cbv zeta. now destruct (exhausted _). Qed.

End Loop.

(** ** The five endpoints *)

Lemma parse_statistics res : parse (endpoint 0) res = shapeA res.
Proof. reflexivity. Qed.

Lemma parse_stats_sid res : parse (endpoint 1) res = shapeB res.
Proof. reflexivity. Qed.

Lemma parse_stats res : parse (endpoint 2) res = shapeB res.
Proof. reflexivity. Qed.

Lemma parse_7html res s : parse (endpoint 3) res s = shapeC res s.
Proof.
  change (parse (endpoint 3) res)
    with (c <- shapeC res ;; match c with Break => ret Break | Next => ret Next end).
  unfold bind. destruct (shapeC res s) as [[[]|e] s']; reflexivity.
Qed.

Lemma parse_status_json res : parse (endpoint 4) res = shapeD res.
Proof. reflexivity. Qed.

Lemma urls_endpoints u :
  In u urls ->
  u = endpoint 0 \/ u = endpoint 1 \/ u = endpoint 2 \/ u = endpoint 3 \/ u = endpoint 4.
Proof. intros [<-|[<-|[<-|[<-|[<-|[]]]]]]; tauto. Qed.

Lemma attempt_rejected w u e s :
  w u = Rejected e -> attempt w u s = (Exc e, requested u s).
Proof. intros H. unfold attempt, fetchWithTimeout, bind. now rewrite H. Qed.

Lemma attempt_not_ok w u res s :
  w u = Responded res -> ok res = false ->
  attempt w u s = (Exc (Error ("HTTP " ++ Str.of_N (status_code res))), requested u s).
Proof. intros H K. unfold attempt, fetchWithTimeout, bind. now rewrite H, K. Qed.

Lemma attempt_ok w u res s :
  w u = Responded res -> ok res = true ->
  attempt w u s = parse u res (requested u s).
Proof. intros H K. unfold attempt, fetchWithTimeout, bind. now rewrite H, K. Qed.

(** A transport failure leaves the variables as they were. *)
Lemma attempt_transport_failure w u :
  In u urls -> transport_failure w u ->
  exists e, forall s, attempt w u s = (Exc e, requested u s).
Proof.
  intros Hu T. unfold transport_failure in T.
  destruct (w u) as [e|res] eqn:W.
  - exists e. intros s. now apply attempt_rejected.
  - destruct (ok res) eqn:K.
    2:{ exists (Error ("HTTP " ++ Str.of_N (status_code res))). intros s.
        apply attempt_not_ok; assumption. }
    destruct T as [T|T]; [discriminate|].
    destruct (urls_endpoints _ Hu) as [->|[->|[->|[->| ->]]]];
      cbn in T.
    + destruct (json_body res) as [|e] eqn:J; [contradiction|]. exists e. intros s.
      rewrite (attempt_ok _ _ _ _ W K), parse_statistics. now apply shapeA_unparsed.
    + destruct (json_body res) as [|e] eqn:J; [contradiction|]. exists e. intros s.
      rewrite (attempt_ok _ _ _ _ W K), parse_stats_sid. now apply shapeB_unparsed.
    + destruct (json_body res) as [|e] eqn:J; [contradiction|]. exists e. intros s.
      rewrite (attempt_ok _ _ _ _ W K), parse_stats. now apply shapeB_unparsed.
    + destruct (text_body res) as [|e] eqn:J; [contradiction|]. exists e. intros s.
      rewrite (attempt_ok _ _ _ _ W K), parse_7html. now apply shapeC_unread.
    + destruct (json_body res) as [|e] eqn:J; [contradiction|]. exists e. intros s.
      rewrite (attempt_ok _ _ _ _ W K), parse_status_json. now apply shapeD_unparsed.
Qed.

Lemma transport_failure_unusable w u :
  In u urls -> transport_failure w u -> usable w u = false.
Proof.
  intros Hu T. destruct (attempt_transport_failure _ _ Hu T) as [e R].
  unfold usable. now rewrite R.
Qed.

(** When every request fails in transport, no variable is assigned. *)
Lemma for_of_all_fail w us :
  (forall u, In u us -> In u urls /\ transport_failure w u) ->
  forall s, exhausted (snd (for_of w us s)) = exhausted s.
Proof.
  induction us as [|u us IH]; intros H s; [reflexivity|].
  destruct (H u (or_introl eq_refl)) as [Hu T].
  destruct (attempt_transport_failure _ _ Hu T) as [e R].
  cbn [for_of]. unfold bind, turn, try_catch. rewrite R. cbn.
  rewrite IH; [reflexivity|]. intros v Hv. apply H. now right.
Qed.

(** Shapes A, B and D leave the loop body only by [break] or by an exception. *)
Lemma shapeA_never_next res s : fst (shapeA res s) <> Val Next.
Proof.
  destruct (json_body res) as [j0|e] eqn:H; [|now rewrite (shapeA_unparsed _ _ _ H)].
  destruct j0 eqn:J; try (rewrite (shapeA_null _ _ H); discriminate);
    (destruct (nullish (stream_of (Some j0))) eqn:S; subst j0;
     [erewrite shapeA_stream_null by (eassumption || discriminate); discriminate
     |erewrite shapeA_run by (eassumption || discriminate);
      cbv zeta; destruct (Number _); discriminate]).
Qed.

Lemma shapeB_never_next res s : fst (shapeB res s) <> Val Next.
Proof.
  destruct (json_body res) as [j0|e] eqn:H; [|now rewrite (shapeB_unparsed _ _ _ H)].
  destruct j0 eqn:J; try (rewrite (shapeB_null _ _ H); discriminate);
    (subst j0; erewrite shapeB_run by (eassumption || discriminate);
     cbv zeta; destruct (Number _); discriminate).
Qed.

Lemma shapeD_never_next res s : fst (shapeD res s) <> Val Next.
Proof.
  destruct (json_body res) as [j0|e] eqn:H; [|now rewrite (shapeD_unparsed _ _ _ H)].
  erewrite shapeD_run by eassumption. cbv zeta. destruct (Number _); discriminate.
Qed.

(** Only the text endpoint can reach the end of the loop body. *)
Lemma attempt_next w u s s' :
  In u urls -> attempt w u s = (Val Next, s') ->
  u = endpoint 3 /\
  exists res txt,
    w u = Responded res /\ ok res = true /\ text_body res = Val txt
    /\ List.length (Str.split "," (Str.trim (Str.stripTags txt))) < 7
    /\ s' = requested u s.
Proof.
  intros Hu R.
  destruct (w u) as [e|res] eqn:W; [rewrite (attempt_rejected _ _ _ _ W) in R; discriminate|].
  destruct (ok res) eqn:K; [|rewrite (attempt_not_ok _ _ _ _ W K) in R; discriminate].
  rewrite (attempt_ok _ _ _ _ W K) in R.
  destruct (urls_endpoints _ Hu) as [->|[->|[->|[->| ->]]]].
  - rewrite parse_statistics in R. now destruct (shapeA_never_next res (requested (endpoint 0) s)); rewrite R.
  - rewrite parse_stats_sid in R. now destruct (shapeB_never_next res (requested (endpoint 1) s)); rewrite R.
  - rewrite parse_stats in R. now destruct (shapeB_never_next res (requested (endpoint 2) s)); rewrite R.
  - split; [reflexivity|]. rewrite parse_7html in R.
    destruct (text_body res) as [txt|e] eqn:T; [|rewrite (shapeC_unread _ _ _ T) in R; discriminate].
    rewrite (shapeC_run _ _ _ T) in R. cbv zeta in R.
    destruct (Nat.leb 7 _) eqn:L; [discriminate|].
    exists res, txt. apply Nat.leb_gt in L. inversion R. auto.
  - rewrite parse_status_json in R. now destruct (shapeD_never_next res (requested (endpoint 4) s)); rewrite R.
Qed.

(** ** Properties of the resolver *)

Lemma through_first_prefix {A} (p : A -> bool) (d : A) (l : list A) :
  l <> [] ->
  exists k,
    k < List.length l
    /\ through_first p l = firstn (S k) l
    /\ (forall i, i < k -> p (nth i l d) = false)
    /\ (p (nth k l d) = true \/ S k = List.length l).
Proof.
  induction l as [|x r IH]; [congruence|]. intros _.
  cbn [through_first]. destruct (p x) eqn:Px.
  - exists 0. cbn. repeat split; [lia| |auto]. intros i Hi. lia.
  - destruct r as [|y r'].
    + exists 0. cbn. repeat split; [lia| |auto]. intros i Hi. lia.
    + destruct IH as (k & Hk & Hf & Hb & Hl); [discriminate|].
      exists (S k). repeat split.
      * cbn in *. lia.
      * rewrite Hf. reflexivity.
      * intros [|i] Hi; [exact Px|]. cbn [nth]. apply Hb. lia.
      * destruct Hl as [Hl|Hl]; [left; exact Hl|right; cbn in *; lia].
Qed.

(** Shape A reads the announcer from the first stream and falls back to the
    top level. *)
Example top_level_dj_is_the_fallback :
  data_field "locutor" (reply (only 0 stream_without_dj) noon) = Some (JStr "DJ Mike")
  /\ data_field "status" (reply (only 0 stream_without_dj) noon) = Some (JStr "offline")
  /\ contacted (final (only 0 stream_without_dj) noon) = [endpoint 0].
Proof. evaluate. Qed.

(** An assignment made before an exception stays: here the first endpoint
    assigns [locutor] and then throws on the listener count, every other
    endpoint is unreachable, and the route answers with a success envelope
    made of that announcer.  This is why a usable response is one whose
    attempt completes. *)
Remark assignment_before_exception_stays :
  usable (only 0 unconvertible_count) (endpoint 0) = false
  /\ failure (only 0 unconvertible_count) (endpoint 0)
     = Some (TypeError "Cannot convert object to primitive value")
  /\ contacted (final (only 0 unconvertible_count) noon) = urls
  /\ is_success (reply (only 0 unconvertible_count) noon) = true
  /\ data_field "locutor" (reply (only 0 unconvertible_count) noon) = Some (JStr "Ana")
  /\ data_field "unicos" (reply (only 0 unconvertible_count) noon) = Some (JNum 0).
Proof. evaluate. Qed.

(** C2, as stated, fails: the first endpoint yields the announcer ["Ana"] and
    then throws on the listener count; the loop does not stop there, it goes
    on and requests the five endpoints. *)
Lemma first_non_null_field_does_not_stop_counterexample :
  locutor (snd (attempt (only 0 unconvertible_count) (endpoint 0) initial))
  = Some (JStr "Ana")
  /\ fst (attempt (only 0 unconvertible_count) (endpoint 0) initial)
     = Exc (TypeError "Cannot convert object to primitive value")
  /\ contacted (final (only 0 unconvertible_count) noon)
     = [endpoint 0; endpoint 1; endpoint 2; endpoint 3; endpoint 4]
  /\ data_field "locutor" (reply (only 0 unconvertible_count) noon) = Some (JStr "Ana").
Proof. evaluate. Qed.

(** C2, amended: the resolver requests the five endpoints in their order and
    stops at the first one whose attempt runs to its [break], which it
    reaches only after the listener count is assigned (a usable response);
    nothing after it is requested.  A transport failure, an exception thrown
    while the fields are read, also one thrown after a name was assigned, and
    a legacy text with fewer than 7 fields never abort the resolution: the
    loop goes on with the next endpoint. *)
Theorem first_usable_endpoint_wins (w : upstream) (now : string) :
  contacted (final w now) = through_first (usable w) urls
  /\ (exists k,
        k < 5
        /\ contacted (final w now) = firstn (S k) urls
        /\ (forall i, i < k -> usable w (endpoint i) = false)
        /\ (usable w (endpoint k) = true \/ k = 4))
  /\ fst (for_of w urls initial) = Val tt
  /\ (forall u, In u urls -> transport_failure w u -> usable w u = false)
  /\ (forall u s, usable w u = true ->
        exists s', turn w u s = (Val Break, s') /\ unicos s' <> None)
  /\ (forall u s, usable w u = false -> exists s', turn w u s = (Val Next, s'))
  /\ (forall u e, failure w u = Some e -> usable w u = false).
Proof.
  destruct (for_of_run w urls initial) as (V & C & _ & _).
  rewrite final_run.
  split; [exact C|]. split.
  { destruct (through_first_prefix (usable w) "" urls) as (k & Hk & Hf & Hb & Hl);
      [discriminate|].
    exists k. rewrite C, Hf. cbn in Hk, Hl. repeat split; [exact Hk|exact Hb|].
    destruct Hl as [Hl|Hl]; [left; exact Hl|right; lia]. }
  split; [exact V|]. split; [exact (transport_failure_unusable w)|]. split; [|split].
  - intros u s U. destruct (attempt_uniform w u) as (o & f & R & E).
    rewrite (usable_outcome _ _ _ _ R E) in U. rewrite (turn_run _ _ _ _ s R).
    destruct o as [[]|e]; try discriminate.
    eexists. split; [reflexivity|]. apply E.
  - intros u s U. destruct (attempt_uniform w u) as (o & f & R & E).
    rewrite (usable_outcome _ _ _ _ R E) in U. rewrite (turn_run _ _ _ _ s R).
    destruct o as [[]|e]; try discriminate; eexists; reflexivity.
  - intros u e F. unfold failure in F. unfold usable.
    destruct (attempt w u initial) as [[c|e'] s']; [discriminate F|reflexivity].
Qed.

(** The witness of C2: the second endpoint answers, the third is not asked. *)
Lemma first_usable_endpoint_wins_witness :
  contacted (final (only 1 flag_two) noon) = [endpoint 0; endpoint 1].
Proof.
  destruct (first_usable_endpoint_wins (only 1 flag_two) noon) as (C & _).
  rewrite C. reflexivity.
Defined.

Lemma last_failure_app w us vs prev :
  last_failure w (us ++ vs) prev = last_failure w vs (last_failure w us prev).
Proof. unfold last_failure. apply fold_left_app. Qed.

(** Where the route does answer with the failure envelope: when the five
    endpoints all fail in transport, or more generally when [locutor],
    [programa] and [unicos] are all still [null] after the loop, the answer
    has status 500 and the envelope [{ success: false, error }], whose
    message ends with the string form of the last failure recorded, which is
    the failure of the last endpoint; no success envelope is produced. *)
Theorem exhaustion_gives_the_failure_envelope (w : upstream) (now : string) :
  (forall u, In u urls -> transport_failure w u) \/ exhausted (final w now) = true ->
  reply w now = errorJson (exhaustion_message (lastError (final w now))) 500
  /\ http_status (reply w now) = 500%N
  /\ is_success (reply w now) = false
  /\ field "error" (body (reply w now))
     = Some (JStr ("Nenhum endpoint do Shoutcast respondeu. Último erro: "
                   ++ String_ (lastError (final w now))))
  /\ lastError (final w now) = last_failure w (contacted (final w now)) None
  /\ exists e, failure w (endpoint 4) = Some e /\ lastError (final w now) = Some e.
Proof.
  intros H.
  assert (X : exhausted (final w now) = true).
  { destruct H as [H|H]; [|exact H]. rewrite final_run.
    rewrite for_of_all_fail; [reflexivity|]. intros u Hu. split; [exact Hu|now apply H]. }
  clear H. pose proof (reply_run w now) as R. rewrite X in R.
  split; [exact R|]. rewrite R. split; [reflexivity|]. split; [reflexivity|].
  split; [reflexivity|].
  rewrite final_run in X |- *.
  destruct (for_of_run w urls initial) as (_ & C & L & N).
  specialize (N X). rewrite C, L. split; [reflexivity|].
  assert (U : forall i, i < 5 -> usable w (endpoint i) = false).
  { intros i Hi. apply N. apply nth_In. exact Hi. }
  assert (T : through_first (usable w) urls = urls).
  { change urls with [endpoint 0; endpoint 1; endpoint 2; endpoint 3; endpoint 4].
    cbn [through_first]. rewrite !U by lia. reflexivity. }
  rewrite T.
  change urls with ([endpoint 0; endpoint 1; endpoint 2; endpoint 3] ++ [endpoint 4])%list.
  rewrite last_failure_app. unfold last_failure at 1. cbn [fold_left].
  destruct (attempt_uniform w (endpoint 4)) as (o & f & A & E).
  pose proof (usable_outcome _ _ _ _ A E) as UO. rewrite (U 4) in UO by lia.
  rewrite (failure_outcome _ _ _ _ A).
  destruct o as [[]|e]; [discriminate| |eauto].
  exfalso. destruct (attempt_next w (endpoint 4) initial _ (nth_In urls "" (n:=4) ltac:(cbn; lia)) (A initial))
    as [Q _]. discriminate Q.
Qed.

(** Every endpoint is unreachable. *)
Lemma exhaustion_gives_the_failure_envelope_witness :
  reply (fun _ => down) "2026-01-01T00:00:00.000Z"
  = errorJson "Nenhum endpoint do Shoutcast respondeu. Último erro: TypeError: fetch failed" 500
  /\ is_success (reply (fun _ => down) "2026-01-01T00:00:00.000Z") = false.
Proof.
  destruct (exhaustion_gives_the_failure_envelope (fun _ => down) "2026-01-01T00:00:00.000Z")
    as (R & _ & S & _).
  - left. intros u _. exact I.
  - split; [|exact S]. rewrite R. reflexivity.
Defined.

(** C3, as the code has it: the five attempts can all fail and the route
    still answer with a success envelope.  The first endpoint assigns
    [locutor] and then throws on a listener count that [Number] cannot
    convert; the assignment stays, the other four requests are rejected, and
    after the loop [locutor] is not [null]: the answer is 200 with the
    announcer of the failed attempt, 0 listeners and ["offline"], and the
    failure recorded last is reported nowhere.  The failure envelope is
    what the route answers when the attempts fail before any assignment (in
    transport), or when the three variables are still [null]. *)
Theorem failed_attempts_can_answer_success :
  map (failure (only 0 unconvertible_count)) urls
  = [Some (TypeError "Cannot convert object to primitive value");
     Some (TypeError "fetch failed"); Some (TypeError "fetch failed");
     Some (TypeError "fetch failed"); Some (TypeError "fetch failed")]
  /\ map (usable (only 0 unconvertible_count)) urls = [false; false; false; false; false]
  /\ contacted (final (only 0 unconvertible_count) noon) = urls
  /\ lastError (final (only 0 unconvertible_count) noon) = Some (TypeError "fetch failed")
  /\ http_status (reply (only 0 unconvertible_count) noon) = 200%N
  /\ is_success (reply (only 0 unconvertible_count) noon) = true
  /\ field "error" (body (reply (only 0 unconvertible_count) noon)) = None
  /\ data_field "locutor" (reply (only 0 unconvertible_count) noon) = Some (JStr "Ana")
  /\ data_field "programa" (reply (only 0 unconvertible_count) noon) = Some (JStr "—")
  /\ data_field "unicos" (reply (only 0 unconvertible_count) noon) = Some (JNum 0)
  /\ data_field "status" (reply (only 0 unconvertible_count) noon) = Some (JStr "offline")
  /\ (forall w now,
        (forall u, In u urls -> transport_failure w u) \/ exhausted (final w now) = true ->
        http_status (reply w now) = 500%N
        /\ is_success (reply w now) = false
        /\ field "error" (body (reply w now))
           = Some (JStr ("Nenhum endpoint do Shoutcast respondeu. Último erro: "
                         ++ String_ (lastError (final w now))))
        /\ exists e, failure w (endpoint 4) = Some e /\ lastError (final w now) = Some e).
Proof.
  do 11 (split; [vm_compute; reflexivity|]).
  intros w now H.
  destruct (exhaustion_gives_the_failure_envelope w now H) as (_ & S & F & M & _ & L).
  repeat apply conj; assumption.
Qed.

(** *** The status flag and the listener count *)

(** With no flag in the payload, shapes A, B and D are online exactly when the
    listener count is positive, and shape C too when its first field is a
    finite number. *)
Lemma shapeA_status res j0 s s' :
  json_body res = Val j0 -> shapeA res s = (Val Break, s') ->
  let flag := coalesce (get_opt (stream_of (Some j0)) "streamstatus")
                       (get_opt (Some j0) "streamstatus") in
  status s' = online_if (truthy (coalesce flag (bool_value (Num.gt0 (or_zero (unicos s')))))).
Proof.
  intros H R.
  destruct (match j0 with JNull => true | _ => false end) eqn:N.
  { destruct j0; try discriminate. rewrite (shapeA_null _ _ H) in R. discriminate. }
  assert (Hj : j0 <> JNull) by (intros ->; discriminate).
  destruct (nullish (stream_of (Some j0))) eqn:S.
  { rewrite (shapeA_stream_null _ _ _ H Hj S) in R. discriminate. }
  rewrite (shapeA_run _ _ _ H Hj S) in R. cbv zeta in R.
  destruct (Number _); inversion R. reflexivity.
Qed.

Lemma shapeB_status res j0 s s' :
  json_body res = Val j0 -> shapeB res s = (Val Break, s') ->
  status s' = online_if (truthy (coalesce (get_opt (Some j0) "streamstatus")
                                          (bool_value (Num.gt0 (or_zero (unicos s')))))).
Proof.
  intros H R.
  destruct (match j0 with JNull => true | _ => false end) eqn:N.
  { destruct j0; try discriminate. rewrite (shapeB_null _ _ H) in R. discriminate. }
  assert (Hj : j0 <> JNull) by (intros ->; discriminate).
  rewrite (shapeB_run _ _ _ H Hj) in R. cbv zeta in R.
  destruct (Number _); inversion R. reflexivity.
Qed.

Lemma shapeD_status res s s' :
  shapeD res s = (Val Break, s') ->
  status s' = online_if (Num.gt0 (or_zero (unicos s'))).
Proof.
  intros R. destruct (json_body res) as [j0|e] eqn:H.
  - rewrite (shapeD_run _ _ _ H) in R. cbv zeta in R.
    destruct (Number _); inversion R. reflexivity.
  - rewrite (shapeD_unparsed _ _ _ H) in R. discriminate.
Qed.

Lemma shapeC_status res txt s s' :
  text_body res = Val txt -> shapeC res s = (Val Break, s') ->
  Num.isFinite (Num.StringToNumber (hd "" (Str.split "," (Str.trim (Str.stripTags txt))))) = true ->
  status s' = online_if (Num.gt0 (or_zero (unicos s'))).
Proof.
  intros H R F. rewrite (shapeC_run _ _ _ H) in R. cbv zeta in R.
  destruct (Nat.leb 7 _); inversion R. cbn. now rewrite F.
Qed.

Lemma flag_absent F b : nullish F = true -> truthy (coalesce F (bool_value b)) = b.
Proof. intros N. unfold coalesce. now rewrite N. Qed.

Lemma flag_present F b : nullish F = false -> truthy (coalesce F (bool_value b)) = truthy F.
Proof. intros N. unfold coalesce. now rewrite N. Qed.

(** C1, as the code has it: the flag is tested for truth, not compared with
    1.  With the flag 2, or the flag ["live"], shapes A and B answer
    ["online"] although the flag is not 1 and no listener is counted.  In
    general a flag that is present makes the status ["online"] exactly when
    it is true. *)
Theorem stream_status_flag_is_tested_for_truth :
  data_field "status" (reply (only 1 flag_two) noon) = Some (JStr "online")
  /\ data_field "status" (reply (only 0 flag_two) noon) = Some (JStr "online")
  /\ data_field "status" (reply (only 1 flag_text) noon) = Some (JStr "online")
  /\ data_field "unicos" (reply (only 1 flag_two) noon) = Some (JNum 0)
  /\ PrimFloat.eqb 2 1 = false
  /\ PrimFloat.eqb (Num.StringToNumber "live") 1 = false
  /\ (forall res j0 s s',
        json_body res = Val j0 -> shapeB res s = (Val Break, s') ->
        nullish (get_opt (Some j0) "streamstatus") = false ->
        status s' = online_if (truthy (get_opt (Some j0) "streamstatus")))
  /\ (forall res j0 s s',
        json_body res = Val j0 -> shapeA res s = (Val Break, s') ->
        let flag := coalesce (get_opt (stream_of (Some j0)) "streamstatus")
                             (get_opt (Some j0) "streamstatus") in
        nullish flag = false -> status s' = online_if (truthy flag)).
Proof.
  do 6 (split; [vm_compute; reflexivity|]). split.
  - intros res j0 s s' H R N. rewrite (shapeB_status _ _ _ _ H R). now rewrite flag_present.
  - intros res j0 s s' H R flag N. pose proof (shapeA_status _ _ _ _ H R) as S.
    cbv zeta in S. rewrite S. fold flag. now rewrite flag_present.
Qed.

(** C4, as the code has it: in shape C the count is made finite but the
    status is computed from the field as read.  With the first field
    ["Infinity"] the count is 0 and the status is ["online"].  Everywhere
    else the status follows the count: in shapes A and B without a flag, in
    shape D, and in shape C when the first field is a finite number. *)
Theorem infinite_legacy_count_is_online_with_zero_listeners :
  data_field "unicos" (reply (only 3 legacy_infinite) noon) = Some (JNum 0)
  /\ data_field "status" (reply (only 3 legacy_infinite) noon) = Some (JStr "online")
  /\ Num.gt0 0 = false
  /\ Num.StringToNumber "Infinity" = infinity
  /\ (forall res j0 s s',
        json_body res = Val j0 -> shapeA res s = (Val Break, s') ->
        nullish (coalesce (get_opt (stream_of (Some j0)) "streamstatus")
                          (get_opt (Some j0) "streamstatus")) = true ->
        status s' = online_if (Num.gt0 (or_zero (unicos s'))))
  /\ (forall res j0 s s',
        json_body res = Val j0 -> shapeB res s = (Val Break, s') ->
        nullish (get_opt (Some j0) "streamstatus") = true ->
        status s' = online_if (Num.gt0 (or_zero (unicos s'))))
  /\ (forall res s s',
        shapeD res s = (Val Break, s') ->
        status s' = online_if (Num.gt0 (or_zero (unicos s'))))
  /\ (forall res txt s s',
        text_body res = Val txt -> shapeC res s = (Val Break, s') ->
        Num.isFinite
          (Num.StringToNumber (hd "" (Str.split "," (Str.trim (Str.stripTags txt))))) = true ->
        status s' = online_if (Num.gt0 (or_zero (unicos s')))).
Proof.
  do 4 (split; [vm_compute; reflexivity|]). repeat apply conj.
  - intros res j0 s s' H R N. pose proof (shapeA_status _ _ _ _ H R) as S.
    cbv zeta in S. rewrite S. now rewrite flag_absent.
  - intros res j0 s s' H R N. rewrite (shapeB_status _ _ _ _ H R). now rewrite flag_absent.
  - apply shapeD_status.
  - apply shapeC_status.
Qed.

(** C5, as stated, fails: a payload of shape B with a song title and no [dj]
    resolves the announcer to the song title. *)
Lemma announcer_from_dj_only_counterexample :
  get_opt (Some (JObj [("songtitle", JStr "Song X")])) "dj" = None
  /\ data_field "locutor" (reply (only 1 song_only) noon) = Some (JStr "Song X").
Proof. evaluate. Qed.

(** C5, amended: for shape B the announcer is the [dj] field when it is true,
    otherwise the [songtitle] field when it is true, otherwise [null]; so with
    [dj] absent or [null] the announcer is the song title, and [null] only
    when the song title is absent or empty too. *)
Theorem announcer_falls_back_to_song_title (w : upstream) (u : string) (res : Response)
    (j0 : json) (s s' : state) :
  In u [endpoint 1; endpoint 2] ->
  w u = Responded res -> ok res = true -> json_body res = Val j0 ->
  attempt w u s = (Val Break, s') ->
  locutor s' = or_ (or_ (get_opt (Some j0) "dj") (get_opt (Some j0) "songtitle")) null
  /\ (nullish (get_opt (Some j0) "dj") = true ->
      locutor s' = or_ (get_opt (Some j0) "songtitle") null)
  /\ (nullish (get_opt (Some j0) "dj") = true ->
      truthy (get_opt (Some j0) "songtitle") = false -> locutor s' = null).
Proof.
  intros Hu W K H R.
  rewrite (attempt_ok _ _ _ _ W K) in R.
  assert (RB : shapeB res (requested u s) = (Val Break, s')).
  { destruct Hu as [<-|[<-|[]]]; exact R. }
  clear R.
  destruct (match j0 with JNull => true | _ => false end) eqn:N.
  { destruct j0; try discriminate. rewrite (shapeB_null _ _ H) in RB. discriminate. }
  assert (Hj : j0 <> JNull) by (intros ->; discriminate).
  rewrite (shapeB_run _ _ _ H Hj) in RB. cbv zeta in RB.
  destruct (Number _); [|discriminate RB].
  apply (f_equal snd) in RB. cbn [snd] in RB. subst s'.
  cbn [locutor with_status with_unicos with_programa with_locutor].
  rewrite coalesce_or_null.
  split; [reflexivity|]. split.
  - intros D. unfold or_ at 2.
    destruct (truthy (get_opt (Some j0) "dj")) eqn:T; [|reflexivity].
    apply truthy_present in T. congruence.
  - intros D T. unfold or_.
    destruct (truthy (get_opt (Some j0) "dj")) eqn:T'.
    + apply truthy_present in T'. congruence.
    + now rewrite T.
Qed.

Lemma announcer_falls_back_to_song_title_witness :
  locutor (final (only 1 song_only) noon) = Some (JStr "Song X").
Proof.
  destruct (announcer_falls_back_to_song_title (only 1 song_only) (endpoint 1)
              (json_response ("{" ++ q "songtitle" ++ ":" ++ q "Song X" ++ "}")
                             (JObj [("songtitle", JStr "Song X")]))
              (JObj [("songtitle", JStr "Song X")])
              (with_lastError (Some (TypeError "fetch failed")) (requested (endpoint 0) initial))
              (final (only 1 song_only) noon))
    as (L & _).
  - left. reflexivity.
  - reflexivity.
  - reflexivity.
  - reflexivity.
  - vm_compute. reflexivity.
  - exact L.
Defined.

(** *** The success envelope *)

Lemma success_not_exhausted w now :
  is_success (reply w now) = true ->
  exhausted (final w now) = false /\ reply w now = okJson (envelope now (final w now)).
Proof.
  rewrite reply_run. destruct (exhausted (final w now)); [discriminate|auto].
Qed.






Lemma stringify_empty_string j : stringify j = JStr "" -> j = JStr "".
Proof.
  destruct j; cbn [stringify]; intros E; try discriminate E; try exact E.
  destruct (is_finite x); [destruct (is_zero x)|]; discriminate E.
Qed.

Lemma or_json_not_empty v : stringify (or_json v placeholder) <> JStr "".
Proof.
  intros E. apply stringify_empty_string in E. unfold or_json in E.
  destruct v as [j|]; [|discriminate].
  destruct (truthy_json j) eqn:T; [|discriminate]. subst j. discriminate.
Qed.

(** C10: in every success envelope [locutor] and [programa] are never the
    empty string; a value that is false, the empty string like [null], is
    replaced by the placeholder. *)
Theorem names_are_never_empty (w : upstream) (now : string) :
  is_success (reply w now) = true ->
  data_field "locutor" (reply w now) <> Some (JStr "")
  /\ data_field "programa" (reply w now) <> Some (JStr "")
  /\ (truthy (locutor (final w now)) = false ->
      data_field "locutor" (reply w now) = Some (JStr "—"))
  /\ (truthy (programa (final w now)) = false ->
      data_field "programa" (reply w now) = Some (JStr "—"))
  /\ or_json (Some (JStr "")) placeholder = JStr "—".
Proof.
  intros S. destruct (success_not_exhausted _ _ S) as [_ R]. rewrite R.
  change (data_field "locutor" (okJson (envelope now (final w now))))
    with (Some (stringify (or_json (locutor (final w now)) placeholder))).
  change (data_field "programa" (okJson (envelope now (final w now))))
    with (Some (stringify (or_json (programa (final w now)) placeholder))).
  repeat split.
  - intros E. injection E as E. now apply or_json_not_empty in E.
  - intros E. injection E as E. now apply or_json_not_empty in E.
  - intros T. unfold or_json. destruct (locutor (final w now)) as [j|]; [|reflexivity].
    cbn in T. now rewrite T.
  - intros T. unfold or_json. destruct (programa (final w now)) as [j|]; [|reflexivity].
    cbn in T. now rewrite T.
Qed.

Lemma names_are_never_empty_witness :
  data_field "locutor" (reply (only 1 empty_names) noon) = Some (JStr "—")
  /\ data_field "programa" (reply (only 1 empty_names) noon) = Some (JStr "—").
Proof.
  destruct (names_are_never_empty (only 1 empty_names) noon) as (_ & _ & L & P & _).
  - vm_compute. reflexivity.
  - split; [apply L|apply P]; vm_compute; reflexivity.
Defined.

(** C8: two resolutions against the same upstream differ in nothing but the
    [timestamp]: same requests, same variables, same status code and headers,
    same envelope once the [timestamp] is left out. *)
Theorem resolution_is_deterministic_up_to_timestamp (w : upstream) (t1 t2 : string) :
  final w t1 = final w t2
  /\ http_status (reply w t1) = http_status (reply w t2)
  /\ headers (reply w t1) = headers (reply w t2)
  /\ without_timestamp (body (reply w t1)) = without_timestamp (body (reply w t2))
  /\ field "success" (body (reply w t1)) = field "success" (body (reply w t2))
  /\ field "error" (body (reply w t1)) = field "error" (body (reply w t2))
  /\ (forall k, data_field k (reply w t1) = data_field k (reply w t2))
  /\ (is_success (reply w t1) = true ->
      field "timestamp" (body (reply w t1)) = Some (JStr t1)).
Proof.
  assert (F : final w t1 = final w t2) by now rewrite !final_run.
  split; [exact F|]. rewrite !reply_run, F.
  destruct (exhausted (final w t2)); repeat split; discriminate.
Qed.

(** *** The legacy text *)

Lemma dropQuotesStart_spec t :
  exists a, t = a ++ Str.dropQuotesStart t
            /\ all_quotes a = true
            /\ starts_with_quote (Str.dropQuotesStart t) = false.
Proof.
  induction t as [|c t IH].
  - exists "". repeat split.
  - cbn [Str.dropQuotesStart]. destruct (Ascii.eqb c Str.dquote) eqn:Q.
    + destruct IH as (a & E & A & S). exists (String c a). repeat split.
      * cbn [append]. now rewrite <- E.
      * cbn [all_quotes]. now rewrite Q, A.
      * exact S.
    + exists "". repeat split. cbn [starts_with_quote]. exact Q.
Qed.

Lemma dropQuotesEnd_spec t :
  exists b, t = Str.dropQuotesEnd t ++ b
            /\ all_quotes b = true
            /\ ends_with_quote (Str.dropQuotesEnd t) = false.
Proof.
  induction t as [|c t IH].
  - exists "". repeat split.
  - destruct IH as (b & E & B & S). cbn [Str.dropQuotesEnd].
    destruct (Ascii.eqb c Str.dquote) eqn:Q; cbn [andb].
    + destruct (Str.dropQuotesEnd t) as [|d r] eqn:D; cbn [String.eqb].
      * exists (String c b). repeat split.
        -- cbn [append] in *. now rewrite <- E.
        -- cbn [all_quotes]. now rewrite Q, B.
      * exists b. repeat split; [cbn [append] in *; now rewrite <- E|exact B|exact S].
    + exists b. repeat split; [cbn [append]; now rewrite <- E|exact B|].
      destruct (Str.dropQuotesEnd t) as [|d r] eqn:D;
        [cbn [ends_with_quote]; exact Q|exact S].
Qed.

Lemma dropQuotesEnd_start t :
  starts_with_quote t = false -> starts_with_quote (Str.dropQuotesEnd t) = false.
Proof.
  destruct t as [|c t]; [reflexivity|].
  cbn [starts_with_quote Str.dropQuotesEnd]. intros Q. rewrite Q. exact Q.
Qed.

(** [replace(/^"+|"+$/g, "")] removes the quotes around a text and nothing
    else. *)
Lemma stripQuotes_spec t :
  exists a b,
    t = a ++ Str.stripQuotes t ++ b
    /\ all_quotes a = true /\ all_quotes b = true
    /\ starts_with_quote (Str.stripQuotes t) = false
    /\ ends_with_quote (Str.stripQuotes t) = false.
Proof.
  destruct (dropQuotesStart_spec t) as (a & Ea & A & Sa).
  destruct (dropQuotesEnd_spec (Str.dropQuotesStart t)) as (b & Eb & B & Sb).
  exists a, b. unfold Str.stripQuotes. repeat split; try assumption.
  - now rewrite <- Eb.
  - now apply dropQuotesEnd_start.
Qed.

Lemma split_not_nil sep t : Str.split sep t <> [].
Proof.
  destruct t as [|c t]; cbn; [discriminate|].
  destruct (Ascii.eqb c sep); [discriminate|]. destruct (Str.split sep t); discriminate.
Qed.

(** Joining the fields with commas gives the text back: the fields are the
    text between the commas. *)
Lemma join_split t : Str.join "," (Str.split "," t) = t.
Proof.
  unfold Str.join. induction t as [|c t IH]; [reflexivity|].
  cbn [Str.split]. destruct (Ascii.eqb c ",") eqn:Q.
  - apply Ascii.eqb_eq in Q. subst c.
    destruct (Str.split "," t) as [|p ps] eqn:S; [now destruct (split_not_nil "," t)|].
    cbn [String.concat] in *. now rewrite IH.
  - destruct (Str.split "," t) as [|p ps] eqn:S; [now destruct (split_not_nil "," t)|].
    cbn [String.concat] in *. destruct ps; cbn; now rewrite <- IH.
Qed.

(** *** Responses that parse as JSON *)

(** C9, as stated, fails: the body [null] has a successful status and parses
    as JSON, yet the attempt of shape B on it throws a [TypeError] (neither a
    transport error nor a JSON error) and the loop goes on to the last
    endpoint. *)
Lemma parsed_json_ends_iteration_counterexample :
  only 1 null_body (endpoint 1) = Responded (json_response "null" JNull)
  /\ ok (json_response "null" JNull) = true
  /\ usable (only 1 null_body) (endpoint 1) = false
  /\ failure (only 1 null_body) (endpoint 1)
     = Some (TypeError "Cannot read properties of null (reading 'dj')")
  /\ contacted (final (only 1 null_body) noon) = urls.
Proof. evaluate. Qed.

Ltac absent L k :=
  let H := fresh "A" in
  assert (H : own k _ = None) by (apply L; cbn; tauto).

(** C9, amended: at an endpoint of shape A, B or D, a response with a
    successful status whose body parses as JSON never reaches the end of the
    loop body: the attempt ends at [break] with a number in [unicos], or it
    throws (as on the payload [null] in shapes A and B).  On an object with
    none of the expected fields it ends at [break] with [unicos] 0.  The end
    of the loop body is reached only by the text endpoint, on a text with
    fewer than 7 fields. *)
Theorem parsed_json_breaks_or_throws (w : upstream) (u : string) (res : Response)
    (j : json) (s : state) :
  In u [endpoint 0; endpoint 1; endpoint 2; endpoint 4] ->
  w u = Responded res -> ok res = true -> json_body res = Val j ->
  ((exists s' x, attempt w u s = (Val Break, s') /\ unicos s' = Some x)
   \/ (exists e s', attempt w u s = (Exc e, s')))
  /\ (forall fs, j = JObj fs -> lacks all_fields fs ->
      exists s', attempt w u s = (Val Break, s')
                 /\ unicos s' = Some 0%float /\ status s' = offline
                 /\ locutor s' = null /\ programa s' = null)
  /\ (forall v s0 s1, In v urls -> attempt w v s0 = (Val Next, s1) ->
      v = endpoint 3
      /\ exists r txt,
           w v = Responded r /\ ok r = true /\ text_body r = Val txt
           /\ List.length (Str.split "," (Str.trim (Str.stripTags txt))) < 7).
Proof.
  intros Hu W K H. split; [|split].
  - rewrite (attempt_ok _ _ _ _ W K).
    assert (X : exists o f, (forall s, parse u res s = (o, f s)) /\ effect o f
                            /\ o <> Val Next).
    { destruct Hu as [<-|[<-|[<-|[<-|[]]]]].
      - destruct (shapeA_uniform res) as (o & f & R & E). exists o, f. split; [exact R|split; [exact E|]].
        intros ->. apply (shapeA_never_next res initial). now rewrite R.
      - destruct (shapeB_uniform res) as (o & f & R & E). exists o, f. split; [exact R|split; [exact E|]].
        intros ->. apply (shapeB_never_next res initial). now rewrite R.
      - destruct (shapeB_uniform res) as (o & f & R & E). exists o, f. split; [exact R|split; [exact E|]].
        intros ->. apply (shapeB_never_next res initial). now rewrite R.
      - destruct (shapeD_uniform res) as (o & f & R & E). exists o, f. split; [exact R|split; [exact E|]].
        intros ->. apply (shapeD_never_next res initial). now rewrite R. }
    destruct X as (o & f & R & [_ E] & N). rewrite R.
    destruct o as [[]|e]; [|congruence|right; eauto].
    left. specialize (E (requested u s)).
    destruct (unicos (f (requested u s))) as [x|] eqn:U; [|congruence].
    exists (f (requested u s)), x. auto.
  - intros fs -> L. rewrite (attempt_ok _ _ _ _ W K).
    absent L "streams". absent L "dj". absent L "songtitle". absent L "servertitle".
    absent L "uniquelisteners". absent L "currentlisteners". absent L "streamstatus".
    absent L "icestats". absent L "source".
    destruct Hu as [<-|[<-|[<-|[<-|[]]]]].
    + rewrite parse_statistics.
      assert (S : stream_of (Some (JObj fs)) = Some (JObj fs))
        by (unfold stream_of; cbn [get_opt]; now rewrite A).
      rewrite (shapeA_run _ _ _ H) by (discriminate || now rewrite S).
      cbv zeta. rewrite S. cbn [get_opt]. rewrite A0, A1, A2, A3, A4, A5.
      eexists. split; [reflexivity|]. repeat split.
    + rewrite parse_stats_sid, (shapeB_run _ _ _ H) by discriminate.
      cbv zeta. cbn [get_opt]. rewrite A0, A1, A2, A3, A4, A5.
      eexists. split; [reflexivity|]. repeat split.
    + rewrite parse_stats, (shapeB_run _ _ _ H) by discriminate.
      cbv zeta. cbn [get_opt]. rewrite A0, A1, A2, A3, A4, A5.
      eexists. split; [reflexivity|]. repeat split.
    + rewrite parse_status_json, (shapeD_run _ _ _ H).
      assert (S : source_of (Some (JObj fs)) = None).
      { unfold source_of, source_test_of. cbn [get_opt]. rewrite A6, A7. reflexivity. }
      cbv zeta. rewrite S.
      eexists. split; [reflexivity|]. repeat split.
  - intros v s0 s1 Hv R. destruct (attempt_next _ _ _ _ Hv R) as (E & r & txt & X).
    split; [exact E|]. exists r, txt. tauto.
Qed.

Lemma parsed_json_breaks_or_throws_witness :
  exists s',
    attempt (only 0 empty_object) (endpoint 0) initial = (Val Break, s')
    /\ unicos s' = Some 0%float /\ status s' = offline.
Proof.
  destruct (parsed_json_breaks_or_throws (only 0 empty_object) (endpoint 0)
              (json_response "{}" (JObj [])) (JObj []) initial)
    as (_ & B & _).
  - left. reflexivity.
  - reflexivity.
  - reflexivity.
  - reflexivity.
  - destruct (B [] eq_refl) as (s' & R & U & S & _).
    + intros k _. reflexivity.
    + exists s'. auto.
Defined.

(* ================================================================== *)
(** * More properties of the route *)

Import More.

(** ** The two envelopes *)

(** X1: the route answers 200 with a success envelope that carries the clock
    reading and no [error], or 500 with a failure envelope that carries an
    [error] and neither [data] nor [timestamp]; which one is decided by the
    three variables being all [null] after the loop.  Both carry the JSON
    content type and the same permissive cross-origin header as the
    pre-flight answer. *)
Theorem route_answers_200_or_500 (w : upstream) (now : string) :
  headers (reply w now) = response_headers
  /\ header "Content-Type" (headers (reply w now)) = Some "application/json; charset=utf-8"
  /\ header "Access-Control-Allow-Origin" (headers (reply w now))
     = header "Access-Control-Allow-Origin" (bare_headers OPTIONS)
  /\ is_success (reply w now) = negb (exhausted (final w now))
  /\ (is_success (reply w now) = true ->
      http_status (reply w now) = 200%N
      /\ field "timestamp" (body (reply w now)) = Some (JStr now)
      /\ field "error" (body (reply w now)) = None
      /\ field "data" (body (reply w now)) <> None)
  /\ (is_success (reply w now) = false ->
      http_status (reply w now) = 500%N
      /\ field "error" (body (reply w now))
         = Some (JStr (exhaustion_message (lastError (final w now))))
      /\ field "data" (body (reply w now)) = None
      /\ field "timestamp" (body (reply w now)) = None).
Proof.
  rewrite reply_run.
  destruct (exhausted (final w now)); cbn [negb].
  - repeat apply conj; try reflexivity; intros E; try discriminate E.
    repeat apply conj; reflexivity.
  - repeat apply conj; try reflexivity; intros E; try discriminate E.
    repeat apply conj; try reflexivity. discriminate.
Qed.

(** ** Invariants of the loop *)

(** A property of the state that every turn keeps holds after the loop. *)
Lemma for_of_invariant (I : state -> Prop) (w : upstream) :
  (forall u s, I s -> I (snd (turn w u s))) ->
  forall us s, I s -> I (snd (for_of w us s)).
Proof.
  intros T us. induction us as [|u us IH]; intros s Hs; [exact Hs|].
  cbn [for_of]. unfold bind.
  pose proof (T u s Hs) as Hu.
  destruct (attempt_uniform w u) as (o & f & R & _).
  rewrite (turn_run w u o f s R) in *.
  destruct o as [[]|e]; cbn [snd] in *; [exact Hu|now apply IH|now apply IH].
Qed.

Lemma settled_null : settled null.
Proof. now left. Qed.

Lemma settled_or_null a : settled (or_ a null).
Proof. unfold or_. destruct (truthy a) eqn:T; [now right|now left]. Qed.

Lemma settled_or_null_coalesced a : settled (coalesce (or_ a null) null).
Proof. rewrite coalesce_or_null. apply settled_or_null. Qed.

Lemma shapeA_settled res s : settled_names s -> settled_names (snd (shapeA res s)).
Proof.
  intros I. destruct (json_body res) as [j0|e] eqn:H;
    [|now rewrite (shapeA_unparsed _ _ _ H)].
  destruct (match j0 with JNull => true | _ => false end) eqn:N.
  { destruct j0; try discriminate. now rewrite (shapeA_null _ _ H). }
  assert (Hj : j0 <> JNull) by (intros ->; discriminate).
  destruct (nullish (stream_of (Some j0))) eqn:S.
  { now rewrite (shapeA_stream_null _ _ _ H Hj S). }
  rewrite (shapeA_run _ _ _ H Hj S). cbv zeta.
  destruct (Number _); split; apply settled_or_null_coalesced.
Qed.

Lemma shapeB_settled res s : settled_names s -> settled_names (snd (shapeB res s)).
Proof.
  intros I. destruct (json_body res) as [j0|e] eqn:H;
    [|now rewrite (shapeB_unparsed _ _ _ H)].
  destruct (match j0 with JNull => true | _ => false end) eqn:N.
  { destruct j0; try discriminate. now rewrite (shapeB_null _ _ H). }
  assert (Hj : j0 <> JNull) by (intros ->; discriminate).
  rewrite (shapeB_run _ _ _ H Hj). cbv zeta.
  destruct (Number _); split; apply settled_or_null_coalesced.
Qed.

Lemma shapeC_settled res s : settled_names s -> settled_names (snd (shapeC res s)).
Proof.
  intros I. destruct (text_body res) as [txt|e] eqn:H;
    [|now rewrite (shapeC_unread _ _ _ H)].
  rewrite (shapeC_run _ _ _ H). cbv zeta.
  destruct (Nat.leb 7 _); [|exact I].
  split; [apply settled_null|]. cbn [snd programa with_status with_unicos with_programa].
  destruct (String.eqb _ "") eqn:E; [apply settled_null|].
  right. cbn [truthy truthy_json]. now rewrite E.
Qed.

Lemma shapeD_settled res s : settled_names s -> settled_names (snd (shapeD res s)).
Proof.
  intros I. destruct (json_body res) as [j0|e] eqn:H;
    [|now rewrite (shapeD_unparsed _ _ _ H)].
  rewrite (shapeD_run _ _ _ H). cbv zeta.
  destruct (Number _); [|exact I].
  split; [apply settled_null|apply settled_or_null].
Qed.

Lemma parse_settled u res s : settled_names s -> settled_names (snd (parse u res s)).
Proof.
  intros I. unfold parse.
  destruct (Str.endsWith u "statistics?json=1"); [now apply shapeA_settled|].
  destruct (Str.includes u "/stats"); [now apply shapeB_settled|].
  destruct (Str.endsWith u "/7.html").
  - unfold bind. pose proof (shapeC_settled res s I) as C.
    destruct (shapeC res s) as [[[]|e] s1]; cbn [snd] in *; try exact C.
    destruct (Str.endsWith u "status-json.xsl"); [now apply shapeD_settled|exact C].
  - rewrite bind_ret.
    destruct (Str.endsWith u "status-json.xsl"); [now apply shapeD_settled|exact I].
Qed.

Lemma turn_settled w u s : settled_names s -> settled_names (snd (turn w u s)).
Proof.
  intros I.
  assert (A : settled_names (snd (attempt w u s))).
  { destruct (w u) as [e|res] eqn:W; [now rewrite (attempt_rejected _ _ _ _ W)|].
    destruct (ok res) eqn:K; [|now rewrite (attempt_not_ok _ _ _ _ W K)].
    rewrite (attempt_ok _ _ _ _ W K). now apply parse_settled. }
  unfold turn, try_catch. destruct (attempt w u s) as [[c|e] s1]; exact A.
Qed.

Lemma shown_settled v : settled v -> stringify (or_json v placeholder) = shown v.
Proof.
  intros [->|T]; [reflexivity|].
  destruct v as [j|]; [|discriminate]. cbn in T. unfold or_json. rewrite T.
  destruct j; try reflexivity. discriminate.
Qed.

(** X2: after the loop [locutor] and [programa] hold [null] or a value that
    is true, never an empty string, a zero, [false] or [undefined]; so the
    envelope shows the placeholder exactly for [null], and otherwise the
    upstream value itself. *)
Theorem names_are_null_or_true (w : upstream) (now : string) :
  settled (locutor (final w now))
  /\ settled (programa (final w now))
  /\ (is_success (reply w now) = true ->
      data_field "locutor" (reply w now) = Some (shown (locutor (final w now)))
      /\ data_field "programa" (reply w now) = Some (shown (programa (final w now)))).
Proof.
  assert (I : settled_names (final w now)).
  { rewrite final_run. apply for_of_invariant.
    - intros u s. apply turn_settled.
    - split; apply settled_null. }
  destruct I as [L P]. split; [exact L|]. split; [exact P|].
  intros S. destruct (success_not_exhausted _ _ S) as [_ R]. rewrite R.
  change (data_field "locutor" (okJson (envelope now (final w now))))
    with (Some (stringify (or_json (locutor (final w now)) placeholder))).
  change (data_field "programa" (okJson (envelope now (final w now))))
    with (Some (stringify (or_json (programa (final w now)) placeholder))).
  now rewrite !shown_settled.
Qed.

Lemma turn_counted w u s : counted s -> counted (snd (turn w u s)).
Proof.
  intros I. destruct (attempt_uniform w u) as (o & f & R & K & E).
  rewrite (turn_run w u o f s R).
  destruct o as [[]|e]; cbn [snd]; unfold counted in *.
  - intros _. apply E.
  - rewrite E. exact I.
  - destruct (E (requested u s)) as [U S]. cbn [status unicos with_lastError].
    rewrite U, S. exact I.
Qed.

(** X3: the status is ["online"] only when a listener count was assigned: an
    attempt that throws leaves the status as it was, and every [break] comes
    after the assignment of [unicos]. *)
Theorem online_needs_a_count (w : upstream) (now : string) :
  (status (final w now) = online -> exists x, unicos (final w now) = Some x)
  /\ (data_field "status" (reply w now) = Some (JStr "online") ->
      exists x, unicos (final w now) = Some x
                /\ data_field "unicos" (reply w now) = Some (stringify (JNum x))).
Proof.
  assert (I : counted (final w now)).
  { rewrite final_run. apply for_of_invariant.
    - intros u s. apply turn_counted.
    - intros X. discriminate X. }
  assert (A : status (final w now) = online -> exists x, unicos (final w now) = Some x).
  { intros S. specialize (I S). destruct (unicos (final w now)) as [x|]; [eauto|congruence]. }
  split; [exact A|].
  rewrite reply_run. destruct (exhausted (final w now)); [discriminate|].
  change (data_field "status" (okJson (envelope now (final w now))))
    with (Some (JStr (Status_str (status (final w now))))).
  change (data_field "unicos" (okJson (envelope now (final w now))))
    with (Some (stringify (JNum (or_zero (unicos (final w now)))))).
  intros S. destruct (status (final w now)) eqn:T; [|discriminate S].
  destruct (A eq_refl) as [x U]. exists x. rewrite U. auto.
Qed.

(** ** Shape A and shape B *)

Lemma Number_fails v e :
  Number v = Exc e ->
  unconvertible v = true /\ e = TypeError "Cannot convert object to primitive value".
Proof.
  destruct v as [[]|]; cbn [Number unconvertible]; try discriminate;
    destruct (toPrimitive_throws _); try discriminate; intros E; injection E as <-; auto.
Qed.

Lemma Number_succeeds v x : Number v = Val x -> unconvertible v = false.
Proof.
  destruct v as [[]|]; cbn [Number unconvertible]; try reflexivity;
    destruct (toPrimitive_throws _); try discriminate; reflexivity.
Qed.

(** What shape A leaves when it ends at [break]. *)
Lemma shapeA_break res j0 s s' :
  json_body res = Val j0 -> shapeA res s = (Val Break, s') ->
  let j := Some j0 in
  let stream := stream_of j in
  exists x,
    Number (coalesce (coalesce (coalesce (coalesce (get_opt stream "uniquelisteners")
                                                   (get_opt j "uniquelisteners"))
                                         (get_opt stream "currentlisteners"))
                               (get_opt j "currentlisteners"))
                     (num zero)) = Val x
    /\ unicos s' = Some x
    /\ locutor s' = or_ (or_ (get_opt stream "dj") (get_opt j "dj")) null
    /\ programa s'
       = or_ (or_ (or_ (get_opt stream "songtitle") (get_opt stream "servertitle"))
                  (get_opt j "songtitle")) null.
Proof.
  intros H R j stream.
  destruct (match j0 with JNull => true | _ => false end) eqn:N.
  { destruct j0; try discriminate. rewrite (shapeA_null _ _ H) in R. discriminate. }
  assert (Hj : j0 <> JNull) by (intros ->; discriminate).
  destruct (nullish (stream_of (Some j0))) eqn:S.
  { rewrite (shapeA_stream_null _ _ _ H Hj S) in R. discriminate. }
  rewrite (shapeA_run _ _ _ H Hj S) in R. cbv zeta in R.
  fold j stream in R.
  destruct (Number _) as [x|e] eqn:E; [|discriminate R].
  apply (f_equal snd) in R. cbn [snd] in R. subst s'.
  exists x. split; [reflexivity|]. split; [reflexivity|].
  split; cbn [locutor programa with_status with_unicos with_programa with_locutor];
    apply coalesce_or_null.
Qed.

(** X4: in shape A the listener count is the first that is present among the
    stream's unique listeners, the top-level unique listeners, the stream's
    current listeners and the top-level current listeners, in that order (a
    top-level unique count wins over a stream-level current count), and 0 when
    none is present. *)
Theorem statistics_count_precedence (w : upstream) (res : Response) (j0 : json)
    (s s' : state) :
  w (endpoint 0) = Responded res -> ok res = true -> json_body res = Val j0 ->
  attempt w (endpoint 0) s = (Val Break, s') ->
  let j := Some j0 in
  let stream := stream_of j in
  let a := get_opt stream "uniquelisteners" in
  let b := get_opt j "uniquelisteners" in
  let c := get_opt stream "currentlisteners" in
  let d := get_opt j "currentlisteners" in
  exists x,
    unicos s' = Some x
    /\ (nullish a = false -> Number a = Val x)
    /\ (nullish a = true -> nullish b = false -> Number b = Val x)
    /\ (nullish a = true -> nullish b = true -> nullish c = false -> Number c = Val x)
    /\ (nullish a = true -> nullish b = true -> nullish c = true -> nullish d = false ->
        Number d = Val x)
    /\ (nullish a = true -> nullish b = true -> nullish c = true -> nullish d = true ->
        x = zero).
Proof.
  intros W K H R j stream a b c d.
  rewrite (attempt_ok _ _ _ _ W K), parse_statistics in R.
  destruct (shapeA_break _ _ _ _ H R) as (x & N & U & _).
  fold j stream a b c d in N.
  exists x. split; [exact U|]. unfold coalesce in N.
  repeat apply conj; intros;
    repeat match goal with
      | E : nullish _ = _ |- _ => rewrite E in N; cbv iota in N
      end;
    try exact N.
  cbn in N. now injection N as <-.
Qed.

Lemma statistics_count_precedence_witness :
  unicos (final (only 0 (json_reply mixed_counts_text mixed_counts)) noon) = Some 3%float.
Proof.
  destruct (statistics_count_precedence
              (only 0 (json_reply mixed_counts_text mixed_counts))
              (json_response mixed_counts_text mixed_counts) mixed_counts initial
              (final (only 0 (json_reply mixed_counts_text mixed_counts)) noon))
    as (x & U & _ & B & _).
  - reflexivity.
  - reflexivity.
  - reflexivity.
  - vm_compute. reflexivity.
  - rewrite U. f_equal. specialize (B eq_refl eq_refl). vm_compute in B. now injection B.
Defined.

(** X5: in shape A the announcer is the stream's [dj], else the top-level
    [dj]; the program is the stream's [songtitle], else the stream's
    [servertitle], else the top-level [songtitle]: a stream's server title
    wins over a top-level song title, and the top-level [servertitle] is read
    only when there is no stream. *)
Theorem statistics_names_precedence (w : upstream) (res : Response) (j0 : json)
    (s s' : state) :
  w (endpoint 0) = Responded res -> ok res = true -> json_body res = Val j0 ->
  attempt w (endpoint 0) s = (Val Break, s') ->
  let j := Some j0 in
  let stream := stream_of j in
  (truthy (get_opt stream "dj") = true -> locutor s' = get_opt stream "dj")
  /\ (truthy (get_opt stream "dj") = false -> locutor s' = or_ (get_opt j "dj") null)
  /\ (truthy (get_opt stream "songtitle") = true -> programa s' = get_opt stream "songtitle")
  /\ (truthy (get_opt stream "songtitle") = false ->
      truthy (get_opt stream "servertitle") = true ->
      programa s' = get_opt stream "servertitle")
  /\ (truthy (get_opt stream "songtitle") = false ->
      truthy (get_opt stream "servertitle") = false ->
      programa s' = or_ (get_opt j "songtitle") null).
Proof.
  intros W K H R j stream.
  rewrite (attempt_ok _ _ _ _ W K), parse_statistics in R.
  destruct (shapeA_break _ _ _ _ H R) as (x & _ & _ & L & P).
  fold j stream in L, P. rewrite L, P. unfold or_.
  repeat apply conj; intros;
    repeat match goal with
      | E : truthy _ = _ |- _ => rewrite E; cbv iota
      end;
    reflexivity.
Qed.

Lemma statistics_names_precedence_witness :
  locutor (final (only 0 stream_without_dj) noon) = Some (JStr "DJ Mike").
Proof.
  destruct (statistics_names_precedence (only 0 stream_without_dj)
              (json_response
                 ("{" ++ q "streams" ++ ":[{" ++ q "dj" ++ ":null," ++ q "uniquelisteners"
                  ++ ":0}]," ++ q "dj" ++ ":" ++ q "DJ Mike" ++ "}")
                 (JObj [("streams", JArr [JObj [("dj", JNull); ("uniquelisteners", JNum 0)]]);
                        ("dj", JStr "DJ Mike")]))
              (JObj [("streams", JArr [JObj [("dj", JNull); ("uniquelisteners", JNum 0)]]);
                     ("dj", JStr "DJ Mike")])
              initial (final (only 0 stream_without_dj) noon))
    as (_ & L & _).
  - reflexivity.
  - reflexivity.
  - reflexivity.
  - vm_compute. reflexivity.
  - rewrite L; reflexivity.
Defined.

Lemma stream_of_first fs x rest :
  own "streams" fs = Some (JArr (x :: rest)) -> stream_of (Some (JObj fs)) = Some x.
Proof. intros H. unfold stream_of. cbn [get_opt]. rewrite H. reflexivity. Qed.

Lemma shapeA_with_streams res fs x rest s :
  json_body res = Val (JObj fs) -> own "streams" fs = Some (JArr (x :: rest)) ->
  shapeA res s =
  match x with
  | JNull => (Exc (TypeError "Cannot read properties of null (reading 'dj')"), s)
  | _ =>
      let l := or_ (or_ (get_opt (Some x) "dj") (own "dj" fs)) null in
      let p := or_ (or_ (or_ (get_opt (Some x) "songtitle") (get_opt (Some x) "servertitle"))
                        (own "songtitle" fs)) null in
      match Number (coalesce (coalesce (coalesce (coalesce (get_opt (Some x) "uniquelisteners")
                                                           (own "uniquelisteners" fs))
                                                 (get_opt (Some x) "currentlisteners"))
                                       (own "currentlisteners" fs))
                             (num zero)) with
      | Exc e => (Exc e, with_programa p (with_locutor l s))
      | Val n =>
          (Val Break,
           with_status
             (online_if (truthy (coalesce (coalesce (get_opt (Some x) "streamstatus")
                                                    (own "streamstatus" fs))
                                          (bool_value (Num.gt0 n)))))
             (with_unicos (Some n) (with_programa p (with_locutor l s))))
      end
  end.
Proof.
  intros H O.
  destruct (match x with JNull => true | _ => false end) eqn:N.
  - destruct x; try discriminate.
    apply (shapeA_stream_null _ _ _ H); [discriminate|].
    rewrite (stream_of_first _ _ _ O). reflexivity.
  - assert (S : nullish (stream_of (Some (JObj fs))) = false)
      by (rewrite (stream_of_first _ _ _ O); now destruct x).
    rewrite (shapeA_run _ _ _ H) by (discriminate || exact S).
    cbv zeta. rewrite (stream_of_first _ _ _ O). cbn [get_opt].
    rewrite !coalesce_or_null.
    destruct x; try discriminate; reflexivity.
Qed.

(** X6: when [streams] is an array with an element, shape A reads the first
    stream and no other: two payloads with the same first stream and the same
    properties beside [streams], whatever the order of their keys, resolve
    alike; and a first stream that is [null] makes the attempt throw before
    any variable is assigned. *)
Theorem only_the_first_stream_is_read (res1 res2 : Response) (x : json)
    (rest1 rest2 : list json) (fs1 fs2 : list (string * json)) (s : state) :
  json_body res1 = Val (JObj fs1) -> json_body res2 = Val (JObj fs2) ->
  own "streams" fs1 = Some (JArr (x :: rest1)) ->
  own "streams" fs2 = Some (JArr (x :: rest2)) ->
  (forall k, k <> "streams" -> own k fs1 = own k fs2) ->
  shapeA res1 s = shapeA res2 s
  /\ (x = JNull ->
      shapeA res1 s
      = (Exc (TypeError "Cannot read properties of null (reading 'dj')"), s)).
Proof.
  intros H1 H2 O1 O2 E.
  rewrite (shapeA_with_streams _ _ _ _ _ H1 O1), (shapeA_with_streams _ _ _ _ _ H2 O2).
  rewrite (E "dj"), (E "songtitle"), (E "uniquelisteners"), (E "currentlisteners"),
    (E "streamstatus") by discriminate.
  split; [reflexivity|]. now intros ->.
Qed.

Lemma only_the_first_stream_is_read_witness :
  shapeA two_streams initial = shapeA one_stream initial
  /\ shapeA null_then_ana initial
     = (Exc (TypeError "Cannot read properties of null (reading 'dj')"), initial).
Proof.
  split.
  - apply (only_the_first_stream_is_read two_streams one_stream
             (JObj [("uniquelisteners", JNum 4)]) [JObj [("dj", JStr "Ana")]] []
             [("dj", JStr "Top");
              ("streams", JArr [JObj [("uniquelisteners", JNum 4)]; JObj [("dj", JStr "Ana")]])]
             [("dj", JStr "Top"); ("streams", JArr [JObj [("uniquelisteners", JNum 4)]])]
             initial eq_refl eq_refl eq_refl eq_refl).
    intros k Hk. cbn [own].
    destruct (String.eqb k "dj"); [reflexivity|].
    destruct (String.eqb k "streams") eqn:Q; [|reflexivity].
    apply String.eqb_eq in Q. contradiction.
  - destruct (only_the_first_stream_is_read null_then_ana null_stream
                JNull [JObj [("dj", JStr "Ana")]] []
                [("streams", JArr [JNull; JObj [("dj", JStr "Ana")]])]
                [("streams", JArr [JNull])] initial eq_refl eq_refl eq_refl eq_refl)
      as [_ N].
    + intros k Hk. cbn [own].
      destruct (String.eqb k "streams") eqn:Q; [|reflexivity].
      apply String.eqb_eq in Q. contradiction.
    + exact (N eq_refl).
Defined.

Lemma flat_stream j : flat j = true -> stream_of j = j.
Proof.
  unfold flat, stream_of. destruct (isArray _ && _)%bool; [discriminate|reflexivity].
Qed.

Lemma or_twice a c : or_ (or_ a a) c = or_ a c.
Proof. unfold or_. destruct (truthy a) eqn:T; now rewrite ?T. Qed.

Lemma or_again a b c : or_ (or_ (or_ a b) a) c = or_ (or_ a b) c.
Proof.
  unfold or_. destruct (truthy a) eqn:T; rewrite ?T; [reflexivity|].
  destruct (truthy b) eqn:T'; rewrite ?T', ?T; reflexivity.
Qed.

Lemma coalesce_twice a c z :
  coalesce (coalesce (coalesce (coalesce a a) c) c) z = coalesce (coalesce a c) z.
Proof.
  unfold coalesce. destruct (nullish a) eqn:T; rewrite ?T; [|reflexivity].
  destruct (nullish c) eqn:T'; rewrite ?T'; reflexivity.
Qed.

Lemma coalesce_same a z : coalesce (coalesce a a) z = coalesce a z.
Proof. unfold coalesce. destruct (nullish a) eqn:T; now rewrite ?T. Qed.

(** X7: on a payload without streams (no [streams], an empty list, or not a
    list) the statistics endpoint and the stats endpoints resolve the same
    program, listener count and status, and fail alike; they differ only in
    the announcer, for which shape B falls back to the song title. *)
Theorem statistics_and_stats_agree_without_streams (res : Response) (j0 : json)
    (s : state) :
  json_body res = Val j0 -> j0 <> JNull -> flat (Some j0) = true ->
  fst (shapeA res s) = fst (shapeB res s)
  /\ programa (snd (shapeA res s)) = programa (snd (shapeB res s))
  /\ unicos (snd (shapeA res s)) = unicos (snd (shapeB res s))
  /\ status (snd (shapeA res s)) = status (snd (shapeB res s))
  /\ (truthy (get_opt (Some j0) "dj") = true \/ truthy (get_opt (Some j0) "songtitle") = false ->
      shapeA res s = shapeB res s).
Proof.
  intros H Hj F.
  assert (S : stream_of (Some j0) = Some j0) by now apply flat_stream.
  assert (N : nullish (stream_of (Some j0)) = false) by (rewrite S; now destruct j0).
  rewrite (shapeA_run _ _ _ H Hj N), (shapeB_run _ _ _ H Hj). cbv zeta.
  rewrite S, !coalesce_or_null, or_twice, or_again, coalesce_twice.
  assert (L : truthy (get_opt (Some j0) "dj") = true
              \/ truthy (get_opt (Some j0) "songtitle") = false ->
              or_ (get_opt (Some j0) "dj") null
              = or_ (or_ (get_opt (Some j0) "dj") (get_opt (Some j0) "songtitle")) null).
  { unfold or_. intros [T|T].
    - now rewrite !T.
    - destruct (truthy (get_opt (Some j0) "dj")) eqn:D; rewrite ?D, ?T; reflexivity. }
  destruct (Number _) as [x|e]; rewrite ?coalesce_same;
    repeat apply conj; try reflexivity; intros T; now rewrite (L T).
Qed.

Lemma statistics_and_stats_agree_without_streams_witness :
  shapeA (json_response "{}" (JObj [])) initial = shapeB (json_response "{}" (JObj [])) initial.
Proof.
  destruct (statistics_and_stats_agree_without_streams
              (json_response "{}" (JObj [])) (JObj []) initial eq_refl)
    as (_ & _ & _ & _ & E).
  - discriminate.
  - reflexivity.
  - apply E. now right.
Defined.

(** X8: on a body that parses as JSON, the attempt of shape B fails in
    exactly two ways: the body is [null] (a property is read from it), or the
    listener count is an object or array that [Number] cannot convert, and
    then after the names were assigned; in every other case it ends at
    [break] with a number in [unicos]. *)
Theorem stats_fails_exactly_on_null_or_unconvertible (res : Response) (j0 : json)
    (s : state) :
  json_body res = Val j0 ->
  let j := Some j0 in
  let n := coalesce (coalesce (get_opt j "uniquelisteners") (get_opt j "currentlisteners"))
                    (num zero) in
  (j0 = JNull ->
   shapeB res s = (Exc (TypeError "Cannot read properties of null (reading 'dj')"), s))
  /\ (j0 <> JNull -> unconvertible n = true ->
      exists s',
        shapeB res s = (Exc (TypeError "Cannot convert object to primitive value"), s')
        /\ unicos s' = unicos s /\ status s' = status s
        /\ locutor s' = or_ (or_ (get_opt j "dj") (get_opt j "songtitle")) null)
  /\ (j0 <> JNull -> unconvertible n = false ->
      exists s' x, shapeB res s = (Val Break, s') /\ Number n = Val x /\ unicos s' = Some x).
Proof.
  intros H j n. split; [|split].
  - intros ->. now apply shapeB_null.
  - intros Hj U. rewrite (shapeB_run _ _ _ H Hj). cbv zeta. fold j n.
    destruct (Number n) as [x|e] eqn:E.
    + apply Number_succeeds in E. congruence.
    + destruct (Number_fails _ _ E) as [_ ->].
      eexists. split; [reflexivity|]. repeat apply conj; try reflexivity.
      apply coalesce_or_null.
  - intros Hj U. rewrite (shapeB_run _ _ _ H Hj). cbv zeta. fold j n.
    destruct (Number n) as [x|e] eqn:E.
    + eexists _, x. repeat apply conj; reflexivity.
    + apply Number_fails in E. destruct E. congruence.
Qed.

Lemma stats_fails_exactly_on_null_or_unconvertible_witness :
  exists s',
    shapeB unconvertible_list_response initial
    = (Exc (TypeError "Cannot convert object to primitive value"), s').
Proof.
  destruct (stats_fails_exactly_on_null_or_unconvertible
              unconvertible_list_response unconvertible_list initial eq_refl)
    as (_ & F & _).
  destruct F as (s' & R & _); [discriminate|reflexivity|].
  exists s'. exact R.
Defined.

(** ** Shape D *)

Lemma shapeD_reads_source res j0 s :
  json_body res = Val j0 -> shapeD res s = source_reading (source_of (Some j0)) s.
Proof. intros H. rewrite (shapeD_run _ _ _ H). reflexivity. Qed.

Lemma unconvertible_default n : unconvertible (coalesce n (num zero)) = unconvertible n.
Proof. destruct n as [[]|]; reflexivity. Qed.

Lemma source_of_scalar j0 :
  match j0 with JObj _ => False | _ => True end -> source_of (Some j0) = None.
Proof.
  destruct j0; try contradiction; intros _; unfold source_of, source_test_of, and_, or_;
    cbn [get_opt truthy truthy_json]; try reflexivity;
    repeat match goal with |- context [if ?b then _ else _] => destruct b; cbn [truthy truthy_json] end;
    reflexivity.
Qed.

(** X9: on a body that parses as JSON the attempt of shape D reads its
    properties through guards and never throws on them, whatever the body is
    ([null], a number, a list): it fails only when the [listeners] value is
    an object or a list that [Number] cannot convert, and then before any
    assignment; a body that is not an object resolves to 0 listeners,
    offline, without program. *)
Theorem status_json_fails_only_on_unconvertible_listeners (res : Response) (j0 : json)
    (s : state) :
  json_body res = Val j0 ->
  let n := get_opt (source_of (Some j0)) "listeners" in
  (unconvertible n = true ->
   shapeD res s = (Exc (TypeError "Cannot convert object to primitive value"), s))
  /\ (unconvertible n = false ->
      exists s' x,
        shapeD res s = (Val Break, s') /\ unicos s' = Some x /\ locutor s' = null
        /\ status s' = online_if (Num.gt0 x))
  /\ (match j0 with JObj _ => False | _ => True end ->
      exists s',
        shapeD res s = (Val Break, s') /\ unicos s' = Some zero /\ status s' = offline
        /\ programa s' = null /\ locutor s' = null).
Proof.
  intros H n. rewrite (shapeD_reads_source _ _ _ H). unfold source_reading. fold n.
  split; [|split].
  - intros U. destruct (Number _) as [x|e] eqn:E.
    + apply Number_succeeds in E. rewrite unconvertible_default in E. congruence.
    + now destruct (Number_fails _ _ E) as [_ ->].
  - intros U. destruct (Number _) as [x|e] eqn:E.
    + eexists _, x. repeat apply conj; reflexivity.
    + apply Number_fails in E. rewrite unconvertible_default in E. destruct E. congruence.
  - intros Sc. subst n. rewrite (source_of_scalar _ Sc).
    eexists. split; [reflexivity|]. repeat apply conj; vm_compute; reflexivity.
Qed.

Lemma status_json_fails_only_on_unconvertible_listeners_witness :
  shapeD unconvertible_listeners initial
  = (Exc (TypeError "Cannot convert object to primitive value"), initial).
Proof.
  destruct (status_json_fails_only_on_unconvertible_listeners unconvertible_listeners
              (JObj [("icestats",
                      JObj [("source", JObj [("listeners", JObj [("toString", JNum 0)])])])])
              initial eq_refl)
    as (F & _).
  apply F. reflexivity.
Defined.

(** The guards of shape D are implied by the test on [icestats.source]. *)
Lemma source_of_located j0 :
  let j := Some j0 in
  let src := get_opt (get_opt j "icestats") "source" in
  source_of j = if isArray src then first src else or_ src (get_opt j "source").
Proof.
  cbv zeta. unfold source_of, source_test_of, and_.
  destruct j0 as [|b|x|t|l|fs]; cbn [get_opt truthy truthy_json isArray];
    try reflexivity.
  - destruct b; reflexivity.
  - destruct (Num.truthy x) eqn:T; unfold truthy, truthy_json; rewrite ?T; reflexivity.
  - destruct (negb _) eqn:T; unfold truthy, truthy_json; rewrite ?T; reflexivity.
  - destruct (own "icestats" fs) as [ice|]; [|reflexivity].
    cbn [truthy]. destruct (truthy_json ice) eqn:T.
    + cbn [bool_value truthy truthy_json]. reflexivity.
    + destruct ice; try discriminate T; unfold truthy; rewrite T; reflexivity.
Qed.

(** X10: shape D locates its record under [icestats.source]: the first
    element when that is a list, even an empty one (the record is then
    missing and the top-level [source] is not consulted: 0 listeners), the
    value itself when it is true and not a list, and the top-level [source]
    otherwise, in particular when [icestats] is absent, [null] or no
    object. *)
Theorem status_json_source_precedence (res : Response) (j0 : json) (s : state) :
  json_body res = Val j0 ->
  let j := Some j0 in
  let src := get_opt (get_opt j "icestats") "source" in
  (forall x rest, src = Some (JArr (x :: rest)) ->
                  shapeD res s = source_reading (Some x) s)
  /\ (src = Some (JArr []) -> shapeD res s = source_reading None s)
  /\ (isArray src = false -> truthy src = true ->
      shapeD res s = source_reading src s)
  /\ (isArray src = false -> truthy src = false ->
      shapeD res s = source_reading (get_opt j "source") s)
  /\ (match get_opt j "icestats" with Some (JObj _) => False | _ => True end ->
      shapeD res s = source_reading (get_opt j "source") s).
Proof.
  intros H j src. rewrite (shapeD_reads_source _ _ _ H).
  pose proof (source_of_located j0) as L. cbv zeta in L. fold j src in L. fold j. rewrite L.
  repeat apply conj.
  - intros x rest S. rewrite S. reflexivity.
  - intros S. rewrite S. reflexivity.
  - intros A T. rewrite A. unfold or_. rewrite T. reflexivity.
  - intros A T. rewrite A. unfold or_. rewrite T. reflexivity.
  - intros I. subst src.
    destruct (get_opt j "icestats") as [[]|]; try contradiction; reflexivity.
Qed.

Lemma status_json_source_precedence_witness :
  (exists s', shapeD empty_sources initial = (Val Break, s') /\ unicos s' = Some zero)
  /\ (exists s', shapeD top_level_source initial = (Val Break, s')
                 /\ unicos s' = Some 9%float).
Proof.
  split.
  - destruct (status_json_source_precedence empty_sources
                (JObj [("icestats", JObj [("source", JArr [])]);
                       ("source", JObj [("listeners", JNum 9)])])
                initial eq_refl)
      as (_ & E & _).
    rewrite (E eq_refl). eexists. split; reflexivity.
  - destruct (status_json_source_precedence top_level_source
                (JObj [("source", JObj [("listeners", JNum 9)])]) initial eq_refl)
      as (_ & _ & _ & _ & E).
    rewrite (E I). eexists. split; reflexivity.
Defined.

(** ** The legacy text *)

Lemma split_length t : List.length (Str.split "," t) = S (count "," t).
Proof.
  induction t as [|c t IH]; [reflexivity|].
  cbn [Str.split count]. destruct (Ascii.eqb c ","); cbn [List.length Nat.add].
  - now rewrite IH.
  - destruct (Str.split "," t) as [|p ps]; [discriminate IH|]. exact IH.
Qed.

Lemma split_fields_have_no_comma t :
  forall f, In f (Str.split "," t) -> count "," f = 0.
Proof.
  induction t as [|c t IH]; intros f.
  - intros [<-|[]]. reflexivity.
  - cbn [Str.split]. destruct (Ascii.eqb c ",") eqn:Q.
    + intros [<-|Hf]; [reflexivity|now apply IH].
    + destruct (Str.split "," t) as [|p ps]; intros [<-|Hf].
      * cbn [count]. now rewrite Q.
      * destruct Hf.
      * cbn [count]. rewrite Q. apply IH. now left.
      * apply IH. now right.
Qed.

(** X11: [split(",")] cuts a text at its commas: one field more than there
    are commas, no field holds a comma, and joining the fields with commas
    gives the text back; the empty text gives one empty field. *)
Theorem fields_are_the_text_between_commas (t : string) :
  List.length (Str.split "," t) = S (count "," t)
  /\ (forall f, In f (Str.split "," t) -> count "," f = 0)
  /\ Str.join "," (Str.split "," t) = t
  /\ Str.split "," "" = [""].
Proof.
  split; [apply split_length|]. split; [apply split_fields_have_no_comma|].
  split; [apply join_split|reflexivity].
Qed.

Lemma split_after_field f t :
  count "," f = 0 -> Str.split "," (f ++ String "," t) = f :: Str.split "," t.
Proof.
  induction f as [|c f IH]; intros C.
  - reflexivity.
  - cbn [count] in C. destruct (Ascii.eqb c ",") eqn:Q; [discriminate C|].
    cbn [append Str.split]. rewrite Q, IH by exact C. reflexivity.
Qed.

Lemma split_fields_then fs rest :
  (forall f, In f fs -> count "," f = 0) ->
  Str.split "," (fields_then fs rest) = (fs ++ Str.split "," rest)%list.
Proof.
  induction fs as [|f fs IH]; intros C; [reflexivity|].
  cbn [fields_then]. rewrite split_after_field by (apply C; now left).
  rewrite IH by (intros g Hg; apply C; now right). reflexivity.
Qed.

(** X12: the legacy text is read when, without its markup and trimmed, it
    holds at least six commas; with fewer the attempt assigns nothing and
    records no error, and the loop goes on.  The program is everything after
    the sixth comma, commas included, without the quotes around it; the
    listener count read from the first field is always finite. *)
Theorem legacy_title_keeps_its_commas (w : upstream) (res : Response) (txt : string)
    (s : state) :
  w (endpoint 3) = Responded res -> ok res = true -> text_body res = Val txt ->
  let t := Str.trim (Str.stripTags txt) in
  (count "," t < 6 ->
   turn w (endpoint 3) s = (Val Next, requested (endpoint 3) s))
  /\ (6 <= count "," t ->
      exists s' x,
        turn w (endpoint 3) s = (Val Break, s')
        /\ unicos s' = Some x /\ Num.isFinite x = true)
  /\ (forall fs rest,
        t = fields_then fs rest -> List.length fs = 6 ->
        (forall f, In f fs -> count "," f = 0) ->
        exists s',
          turn w (endpoint 3) s = (Val Break, s')
          /\ programa s'
             = (if String.eqb (Str.stripQuotes rest) "" then null
                else Some (JStr (Str.stripQuotes rest)))
          /\ unicos s'
             = Some (if Num.isFinite (Num.StringToNumber (nth 0 fs ""))
                     then Num.StringToNumber (nth 0 fs "") else zero)).
Proof.
  intros W K H t.
  assert (T : turn w (endpoint 3) s = shapeC res (requested (endpoint 3) s)
              \/ exists e, shapeC res (requested (endpoint 3) s) = (Exc e, requested (endpoint 3) s)).
  { left. unfold turn, try_catch. rewrite (attempt_ok _ _ _ _ W K), parse_7html.
    rewrite (shapeC_run _ _ _ H). cbv zeta. now destruct (Nat.leb 7 _). }
  destruct T as [T|[e T]]; [|rewrite (shapeC_run _ _ _ H) in T; cbv zeta in T;
                             destruct (Nat.leb 7 _); discriminate T].
  rewrite T, (shapeC_run _ _ _ H). cbv zeta. fold t. rewrite split_length.
  split; [|split].
  - intros L. destruct (Nat.leb 7 (S (count "," t))) eqn:E; [|reflexivity].
    apply Nat.leb_le in E. lia.
  - intros L. destruct (Nat.leb 7 (S (count "," t))) eqn:E; [|apply Nat.leb_gt in E; lia].
    eexists _, _. split; [reflexivity|]. split; [reflexivity|].
    destruct (Num.isFinite (Num.StringToNumber _)) eqn:F; [exact F|reflexivity].
  - intros fs rest E L C.
    assert (S6 : Str.split "," t = (fs ++ Str.split "," rest)%list)
      by (rewrite E; now apply split_fields_then).
    assert (L7 : 6 <= count "," t).
    { pose proof (split_length t) as X. rewrite S6, length_app, L in X.
      pose proof (split_length rest). lia. }
    destruct (Nat.leb 7 (S (count "," t))) eqn:B; [|apply Nat.leb_gt in B; lia].
    rewrite S6.
    destruct fs as [|f0 [|f1 [|f2 [|f3 [|f4 [|f5 [|f6 fs]]]]]]]; try discriminate L.
    cbn [app skipn hd nth]. rewrite join_split.
    eexists. split; [reflexivity|]. split; reflexivity.
Qed.

Lemma legacy_title_keeps_its_commas_witness :
  exists s',
    turn (only 3 (text_reply "<html><body>3,10,100,0,128,0,Ana, Bia, Caio</body></html>"))
         (endpoint 3) initial = (Val Break, s')
    /\ programa s' = Some (JStr "Ana, Bia, Caio")
    /\ unicos s' = Some 3%float.
Proof.
  destruct (legacy_title_keeps_its_commas
              (only 3 (text_reply "<html><body>3,10,100,0,128,0,Ana, Bia, Caio</body></html>"))
              (text_response "<html><body>3,10,100,0,128,0,Ana, Bia, Caio</body></html>")
              "<html><body>3,10,100,0,128,0,Ana, Bia, Caio</body></html>" initial
              eq_refl eq_refl eq_refl)
    as (_ & _ & F).
  destruct (F ["3"; "10"; "100"; "0"; "128"; "0"] "Ana, Bia, Caio") as (s' & R & P & U).
  - vm_compute. reflexivity.
  - reflexivity.
  - intros f Hf. cbn in Hf.
    repeat (destruct Hf as [<-|Hf]; [vm_compute; reflexivity|]). destruct Hf.
  - exists s'. split; [exact R|]. split; [rewrite P|rewrite U]; vm_compute; reflexivity.
Defined.

(** ** What the failure envelope reports *)

(** When no endpoint is usable, the five are requested and [lastError] is the
    failure of the last one, which did fail. *)
Lemma all_unusable_last_error (w : upstream) (now : string) :
  (forall u, In u urls -> usable w u = false) ->
  contacted (final w now) = urls
  /\ lastError (final w now) = failure w (endpoint 4)
  /\ exists e, failure w (endpoint 4) = Some e.
Proof.
  intros N. rewrite final_run.
  destruct (for_of_run w urls initial) as (_ & C & L & _).
  assert (U : forall i, i < 5 -> usable w (endpoint i) = false).
  { intros i Hi. apply N. apply nth_In. exact Hi. }
  assert (T : through_first (usable w) urls = urls).
  { change urls with [endpoint 0; endpoint 1; endpoint 2; endpoint 3; endpoint 4].
    cbn [through_first]. rewrite !U by lia. reflexivity. }
  rewrite C, L, T. split; [reflexivity|].
  change urls with ([endpoint 0; endpoint 1; endpoint 2; endpoint 3] ++ [endpoint 4])%list.
  rewrite last_failure_app. unfold last_failure at 1. cbn [fold_left].
  destruct (attempt_uniform w (endpoint 4)) as (o & f & A & E).
  pose proof (usable_outcome _ _ _ _ A E) as UO. rewrite (U 4) in UO by lia.
  rewrite (failure_outcome _ _ _ _ A).
  destruct o as [[]|e]; [discriminate| |eauto].
  exfalso.
  destruct (attempt_next w (endpoint 4) initial _
              (nth_In urls "" (n:=4) ltac:(cbn; lia)) (A initial)) as [Q _].
  discriminate Q.
Qed.

(** After an exhausted loop [lastError] is the failure of the last endpoint. *)
Lemma exhausted_last_error (w : upstream) (now : string) :
  exhausted (final w now) = true ->
  lastError (final w now) = failure w (endpoint 4)
  /\ forall u, In u urls -> usable w u = false.
Proof.
  intros X.
  assert (N : forall u, In u urls -> usable w u = false).
  { rewrite final_run in X. destruct (for_of_run w urls initial) as (_ & _ & _ & N).
    exact (N X). }
  split; [|exact N]. now destruct (all_unusable_last_error w now N) as (_ & L & _).
Qed.

(** X13: the failure envelope reports what went wrong at [status-json.xsl],
    the last endpoint, whatever the four before it did: the rejection of the
    request, [Error: HTTP <code>] for an answer outside 200..299, the
    exception of an unreadable body, or the [TypeError] of [Number] on a
    parsed one. *)
Theorem failure_reports_the_last_endpoint (w : upstream) (now : string) :
  exhausted (final w now) = true ->
  let reported m :=
    field "error" (body (reply w now))
    = Some (JStr ("Nenhum endpoint do Shoutcast respondeu. Último erro: " ++ m)) in
  match w (endpoint 4) with
  | Rejected e => reported (exn_toString e)
  | Responded res =>
      if ok res then
        match json_body res with
        | Exc e => reported (exn_toString e)
        | Val _ => reported "TypeError: Cannot convert object to primitive value"
        end
      else
        reported ("Error: HTTP " ++ Str.of_N (status_code res))
        /\ ((status_code res < 200)%N \/ (299 < status_code res)%N)
  end.
Proof.
  intros X reported.
  destruct (exhausted_last_error w now X) as [L U].
  assert (R : forall e, failure w (endpoint 4) = Some e -> reported (exn_toString e)).
  { intros e F. unfold reported. rewrite reply_run, X, L, F. reflexivity. }
  specialize (U (endpoint 4) (nth_In urls "" (n:=4) ltac:(cbn; lia))).
  unfold usable in U.
  destruct (w (endpoint 4)) as [e|res] eqn:W.
  - apply R. unfold failure. now rewrite (attempt_rejected _ _ _ _ W).
  - destruct (ok res) eqn:K.
    + rewrite (attempt_ok _ _ _ _ W K), parse_status_json in U.
      destruct (json_body res) as [j0|e] eqn:J.
      * rewrite (shapeD_reads_source _ _ _ J) in U. unfold source_reading in U.
        destruct (Number _) as [x|e] eqn:N; [discriminate U|].
        destruct (Number_fails _ _ N) as [_ E].
        apply (R (TypeError "Cannot convert object to primitive value")).
        unfold failure.
        rewrite (attempt_ok _ _ _ _ W K), parse_status_json, (shapeD_reads_source _ _ _ J).
        unfold source_reading. rewrite N, E. reflexivity.
      * apply R. unfold failure.
        now rewrite (attempt_ok _ _ _ _ W K), parse_status_json, (shapeD_unparsed _ _ _ J).
    + split.
      * apply (R (Error ("HTTP " ++ Str.of_N (status_code res)))). unfold failure.
        now rewrite (attempt_not_ok _ _ _ _ W K).
      * unfold ok in K. apply andb_false_iff in K.
        destruct K as [K|K]; [left; apply N.leb_gt in K|right; apply N.leb_gt in K]; exact K.
Qed.

Lemma failure_reports_the_last_endpoint_witness :
  field "error" (body (reply (fun u => if String.eqb u (endpoint 4) then not_found else down)
                             "2026-01-01T00:00:00.000Z"))
  = Some (JStr "Nenhum endpoint do Shoutcast respondeu. Último erro: Error: HTTP 404").
Proof.
  assert (X : exhausted (final (fun u => if String.eqb u (endpoint 4) then not_found else down)
                               "2026-01-01T00:00:00.000Z") = true)
    by (vm_compute; reflexivity).
  pose proof (failure_reports_the_last_endpoint _ _ X) as H.
  change (field "error" (body (reply (fun u => if String.eqb u (endpoint 4) then not_found else down)
                                     "2026-01-01T00:00:00.000Z"))
          = Some (JStr ("Nenhum endpoint do Shoutcast respondeu. Último erro: "
                        ++ ("Error: HTTP " ++ Str.of_N 404)))
          /\ ((404 < 200)%N \/ (299 < 404)%N)) in H.
  destruct H as [H _]. rewrite H. vm_compute. reflexivity.
Defined.

(** ** Removing the markup *)

Lemma after_gt_tail c s : Str.after_gt (String c s) = None -> Str.after_gt s = None.
Proof. cbn [Str.after_gt]. now destruct (Ascii.eqb c ">"). Qed.

(** Where nothing matches, nothing is removed. *)
Lemma replace_tags_no_tag n :
  forall s, has_tag s = false -> Str.replace_tags n s = s.
Proof.
  induction n as [|n IH]; intros s H; [reflexivity|].
  destruct s as [|c s]; [reflexivity|].
  cbn [has_tag] in H. cbn [Str.replace_tags].
  destruct (Str.match_tag (String c s)); [discriminate H|].
  now rewrite IH.
Qed.

(** A text with no [">"] holds no match. *)
Lemma no_gt_no_tag s : Str.after_gt s = None -> has_tag s = false.
Proof.
  induction s as [|c s IH]; intros H; [reflexivity|].
  pose proof (after_gt_tail _ _ H) as H'.
  cbn [has_tag].
  assert (M : Str.match_tag (String c s) = None).
  { destruct s as [|d s]; [reflexivity|]. cbn [Str.match_tag].
    rewrite (after_gt_tail _ _ H'). now destruct (_ && _). }
  rewrite M. now apply IH.
Qed.

Lemma replace_tags_leaves_no_tag n :
  forall s, String.length s <= n -> has_tag (Str.replace_tags n s) = false.
Proof.
  induction n as [|n IH]; intros s L.
  - destruct s; [reflexivity|cbn in L; lia].
  - destruct s as [|c s]; [reflexivity|].
    cbn [Str.replace_tags].
    destruct (Str.match_tag (String c s)) as [r|] eqn:M.
    + apply IH. apply match_tag_shorter in M. lia.
    + cbn [String.length] in L.
      assert (Hs : has_tag (Str.replace_tags n s) = false) by (apply IH; lia).
      cbn [has_tag]. rewrite Hs.
      assert (M' : Str.match_tag (String c (Str.replace_tags n s)) = None);
        [|now rewrite M'].
      destruct s as [|d s].
      { destruct n; reflexivity. }
      cbn [Str.match_tag] in M.
      destruct (Ascii.eqb c "<") eqn:C.
      * destruct (Ascii.eqb d ">") eqn:D.
        -- destruct n as [|n]; [cbn in L; lia|].
           cbn [Str.replace_tags].
           assert (G : Str.match_tag (String d s) = None).
           { destruct s as [|e s]; [reflexivity|]. cbn [Str.match_tag].
             apply Ascii.eqb_eq in D. subst d. reflexivity. }
           rewrite G. cbn [Str.match_tag]. now rewrite C, D.
        -- cbn [andb negb] in M.
           assert (G : Str.after_gt (String d s) = None)
             by (cbn [Str.after_gt]; now rewrite D).
           rewrite (replace_tags_no_tag _ _ (no_gt_no_tag _ G)).
           cbn [Str.match_tag]. now rewrite C, D.
      * destruct (Str.replace_tags n (String d s)) as [|e r]; [reflexivity|].
        cbn [Str.match_tag]. now rewrite C.
Qed.

(** X14: removing the markup, [txt.replace(/<[^>]+>/g, "")], leaves a text in
    which the pattern matches nowhere; removing it again changes nothing, and
    a text without a match is left as it is. *)
Theorem stripTags_leaves_no_tag (s : string) :
  has_tag (Str.stripTags s) = false
  /\ Str.stripTags (Str.stripTags s) = Str.stripTags s
  /\ (has_tag s = false -> Str.stripTags s = s)
  /\ (Str.stripTags s = s -> has_tag s = false).
Proof.
  assert (H : has_tag (Str.stripTags s) = false)
    by (apply replace_tags_leaves_no_tag; apply le_n).
  split; [exact H|]. split; [|split].
  - unfold Str.stripTags at 1. now apply replace_tags_no_tag.
  - intros N. now apply replace_tags_no_tag.
  - intros E. now rewrite <- E.
Qed.

(** ** A success with no listener count *)

(** An endpoint that is usable leaves a listener count. *)
Lemma for_of_no_count (w : upstream) (us : list string) :
  forall s, unicos (snd (for_of w us s)) = None -> forall u, In u us -> usable w u = false.
Proof.
  induction us as [|u us IH]; intros s X v Hv; [destruct Hv|].
  destruct (attempt_uniform w u) as (o & f & R & E).
  pose proof (usable_outcome _ _ _ _ R E) as U.
  cbn [for_of] in X. unfold bind in X. rewrite (turn_run w u o f s R) in X.
  destruct E as [_ E].
  destruct o as [[]|e]; cbn [snd ret] in X.
  - exfalso. exact (E (requested u s) X).
  - destruct Hv as [<-|Hv]; [exact U|exact (IH _ X _ Hv)].
  - destruct Hv as [<-|Hv]; [exact U|exact (IH _ X _ Hv)].
Qed.

(** X15: the route can answer with a success envelope although no attempt
    ran to its [break]: a name assigned before a later statement of the
    attempt threw stays assigned.  Such a success has no listener count; then
    no endpoint was usable, the five were requested and the last one failed,
    and the envelope shows [unicos] 0 and the status ["offline"] beside the
    name that was left. *)
Theorem success_without_a_count (w : upstream) (now : string) :
  is_success (reply w now) = true -> unicos (final w now) = None ->
  (forall u, In u urls -> usable w u = false)
  /\ contacted (final w now) = urls
  /\ (exists e, failure w (endpoint 4) = Some e /\ lastError (final w now) = Some e)
  /\ is_null (programa (final w now)) && is_null (locutor (final w now)) = false
  /\ (truthy (programa (final w now)) = true \/ truthy (locutor (final w now)) = true)
  /\ data_field "unicos" (reply w now) = Some (JNum zero)
  /\ data_field "status" (reply w now) = Some (JStr "offline").
Proof.
  intros S X.
  assert (N : forall u, In u urls -> usable w u = false).
  { rewrite final_run in X. exact (for_of_no_count w urls initial X). }
  destruct (all_unusable_last_error w now N) as (C & L & e & F).
  destruct (success_not_exhausted _ _ S) as [H R].
  assert (Q : is_null (programa (final w now)) && is_null (locutor (final w now)) = false).
  { unfold exhausted in H. rewrite X in H. rewrite <- andb_assoc in H. exact H. }
  assert (I : settled_names (final w now)).
  { rewrite final_run. apply for_of_invariant.
    - intros u s. apply turn_settled.
    - split; apply settled_null. }
  assert (O : status (final w now) = offline).
  { assert (K : counted (final w now)).
    { rewrite final_run. apply for_of_invariant.
      - intros u s. apply turn_counted.
      - intros Y. discriminate Y. }
    unfold counted in K. destruct (status (final w now)); [now elim K|reflexivity]. }
  split; [exact N|]. split; [exact C|]. split; [exists e; now rewrite L|].
  split; [exact Q|]. split.
  - destruct I as [[Il|Il] [Ip|Ip]]; auto. rewrite Il, Ip in Q. discriminate Q.
  - rewrite R.
    change (data_field "status" (okJson (envelope now (final w now))))
      with (Some (JStr (Status_str (status (final w now))))).
    change (data_field "unicos" (okJson (envelope now (final w now))))
      with (Some (stringify (JNum (or_zero (unicos (final w now)))))).
    rewrite X, O. split; reflexivity.
Qed.

Lemma success_without_a_count_witness :
  contacted (final (only 0 unconvertible_count) noon) = urls
  /\ data_field "unicos" (reply (only 0 unconvertible_count) noon) = Some (JNum zero)
  /\ data_field "status" (reply (only 0 unconvertible_count) noon) = Some (JStr "offline").
Proof.
  destruct (success_without_a_count (only 0 unconvertible_count) noon)
    as (_ & C & _ & _ & _ & U & S).
  - vm_compute. reflexivity.
  - vm_compute. reflexivity.
  - split; [exact C|]. split; [exact U|exact S].
Defined.

(** ** The legacy text in its page *)

Lemma append_nil_r (s : string) : s ++ "" = s.
Proof. induction s as [|c s IH]; cbn [append]; [reflexivity|now rewrite IH]. Qed.

Lemma append_assoc (a b c : string) : (a ++ b) ++ c = a ++ (b ++ c).
Proof. induction a as [|x a IH]; cbn [append]; [reflexivity|now rewrite IH]. Qed.

Lemma length_append (a b : string) :
  String.length (a ++ b) = String.length a + String.length b.
Proof. induction a as [|x a IH]; cbn [append String.length]; [reflexivity|now rewrite IH]. Qed.

Lemma count_append c (a b : string) : count c (a ++ b) = count c a + count c b.
Proof.
  induction a as [|x a IH]; cbn [append count]; [reflexivity|]. rewrite IH. lia.
Qed.

(** *** Markup *)

Lemma after_gt_append m b :
  count ">" m = 0 -> Str.after_gt (m ++ String ">" b) = Some b.
Proof.
  induction m as [|c m IH]; cbn [append Str.after_gt count]; [reflexivity|].
  destruct (Ascii.eqb c ">"); [discriminate|]. exact IH.
Qed.

Lemma match_tag_at_tag m b :
  tag_content m = true -> Str.match_tag (String "<" (m ++ String ">" b)) = Some b.
Proof.
  unfold tag_content. intros H. apply andb_prop in H. destruct H as [N C].
  apply Nat.eqb_eq in C.
  destruct m as [|d m]; [discriminate N|].
  cbn [append Str.match_tag]. cbn [count] in C.
  destruct (Ascii.eqb d ">"); [discriminate C|].
  cbn [Ascii.eqb Bool.eqb andb negb]. now apply after_gt_append.
Qed.

Lemma match_tag_not_lt c r : Ascii.eqb c "<" = false -> Str.match_tag (String c r) = None.
Proof. intros H. destruct r as [|d r]; cbn [Str.match_tag]; [reflexivity|now rewrite H]. Qed.

(** Text without ["<"] is copied. *)
Lemma replace_tags_text n a r :
  count "<" a = 0 ->
  Str.replace_tags (String.length a + n) (a ++ r) = a ++ Str.replace_tags n r.
Proof.
  induction a as [|c a IH]; intros C; [reflexivity|].
  cbn [count] in C. destruct (Ascii.eqb c "<") eqn:Q; [discriminate C|].
  cbn [String.length Nat.add append Str.replace_tags].
  change (String c (a ++ r)) with (String c (a ++ r)).
  rewrite (match_tag_not_lt _ _ Q). now rewrite IH.
Qed.

(** A tag is removed, and the scan resumes behind it. *)
Lemma stripTags_text_then_tag a m b :
  count "<" a = 0 -> tag_content m = true ->
  Str.stripTags (a ++ String "<" (m ++ String ">" b)) = a ++ Str.stripTags b.
Proof.
  intros C T.
  rewrite <- (stripTags_any_fuel (String.length a + S (String.length m + S (String.length b)))).
  - rewrite (replace_tags_text _ _ _ C). f_equal.
    cbn [Str.replace_tags]. rewrite (match_tag_at_tag _ _ T).
    apply stripTags_any_fuel. lia.
  - rewrite length_append. cbn [String.length]. rewrite length_append. cbn [String.length]. lia.
Qed.

Lemma stripTags_no_lt a : count "<" a = 0 -> Str.stripTags a = a.
Proof.
  intros C. unfold Str.stripTags.
  pose proof (replace_tags_text 0 a "" C) as R.
  rewrite append_nil_r, Nat.add_0_r in R. rewrite R. cbn [Str.replace_tags].
  apply append_nil_r.
Qed.

Lemma stripTags_tags ms b :
  forallb tag_content ms = true -> Str.stripTags (tags ms ++ b) = Str.stripTags b.
Proof.
  induction ms as [|m ms IH]; intros T; [reflexivity|].
  cbn [forallb] in T. apply andb_prop in T. destruct T as [Tm T].
  cbn [tags append]. rewrite append_assoc. cbn [append].
  pose proof (stripTags_text_then_tag "" m (tags ms ++ b) eq_refl Tm) as R.
  cbn [append] in R. rewrite R. now apply IH.
Qed.

(** The markup around a text leaves no trace. *)
Lemma stripTags_around ms1 a ms2 b :
  forallb tag_content ms1 = true -> forallb tag_content ms2 = true ->
  count "<" a = 0 -> count "<" b = 0 ->
  Str.stripTags (tags ms1 ++ a ++ tags ms2 ++ b) = a ++ b.
Proof.
  intros T1 T2 Ca Cb. rewrite (stripTags_tags _ _ T1).
  destruct ms2 as [|m ms2].
  - cbn [tags append]. apply stripTags_no_lt. rewrite count_append. lia.
  - cbn [forallb] in T2. apply andb_prop in T2. destruct T2 as [Tm T2].
    cbn [tags append]. rewrite append_assoc. cbn [append].
    rewrite (stripTags_text_then_tag a m (tags ms2 ++ b) Ca Tm).
    rewrite (stripTags_tags _ _ T2). now rewrite (stripTags_no_lt _ Cb).
Qed.

(** *** White space *)

Lemma rev_append_acc s acc : Str.rev_append s acc = Str.rev_append s "" ++ acc.
Proof.
  revert acc. induction s as [|c s IH]; intros acc; [reflexivity|].
  cbn [Str.rev_append]. rewrite (IH (String c acc)), (IH (String c "")).
  rewrite append_assoc. reflexivity.
Qed.

Lemma rev_cons c s : Str.rev (String c s) = Str.rev s ++ String c "".
Proof. unfold Str.rev. cbn [Str.rev_append]. apply rev_append_acc. Qed.

Lemma rev_app a b : Str.rev (a ++ b) = Str.rev b ++ Str.rev a.
Proof.
  induction a as [|c a IH]; cbn [append].
  - now rewrite append_nil_r.
  - rewrite !rev_cons, IH. apply append_assoc.
Qed.

Lemma rev_rev a : Str.rev (Str.rev a) = a.
Proof.
  induction a as [|c a IH]; [reflexivity|].
  rewrite rev_cons, rev_app, IH. reflexivity.
Qed.

Lemma blank_app a b : blank (a ++ b) = blank a && blank b.
Proof.
  induction a as [|c a IH]; cbn [append blank]; [reflexivity|].
  rewrite IH. apply andb_assoc.
Qed.

Lemma blank_rev a : blank (Str.rev a) = blank a.
Proof.
  induction a as [|c a IH]; [reflexivity|].
  rewrite rev_cons, blank_app, IH. cbn [blank]. rewrite andb_true_r. apply andb_comm.
Qed.

Lemma blank_no_lt a : blank a = true -> count "<" a = 0.
Proof.
  induction a as [|c a IH]; cbn [blank count]; [reflexivity|].
  intros H. apply andb_prop in H. destruct H as [W B].
  destruct (Ascii.eqb c "<") eqn:Q; [|now apply IH].
  apply Ascii.eqb_eq in Q. subst c. discriminate W.
Qed.

(** White space at the front is skipped. *)
Lemma strip_ws_blank back p r :
  blank p = true -> Str.strip_ws back (p ++ r) = Str.strip_ws back r.
Proof.
  induction p as [|c p IH]; cbn [blank append]; [reflexivity|].
  intros H. apply andb_prop in H. destruct H as [W B].
  cbn [Str.strip_ws]. rewrite W. now apply IH.
Qed.

(** An ASCII character that is not white space stops the scan: it starts no
    white space of two or three bytes and ends none. *)
Lemma strip_ws_solid back s : starts_solid s = true -> Str.strip_ws back s = s.
Proof.
  destruct s as [|c1 s1]; [discriminate|]. cbn [starts_solid]. unfold solid.
  intros H. apply andb_prop in H. destruct H as [W A].
  apply negb_true_iff in W. apply N.ltb_lt in A.
  cbn [Str.strip_ws]. rewrite W.
  destruct s1 as [|c2 s2]; [reflexivity|].
  assert (E : forall k, (128 <= k)%N -> (Str.code c1 =? k)%N = false)
    by (intros k Hk; apply N.eqb_neq; lia).
  assert (L : (128 <=? Str.code c1)%N = false) by (apply N.leb_gt; exact A).
  assert (W2 : (if back then Str.ws2 (Str.code c2) (Str.code c1)
                else Str.ws2 (Str.code c1) (Str.code c2)) = false).
  { unfold Str.ws2. destruct back.
    - rewrite (E 160%N) by lia. apply andb_false_r.
    - rewrite (E 194%N) by lia. reflexivity. }
  rewrite W2.
  destruct s2 as [|c3 s3]; [reflexivity|].
  assert (W3 : (if back then Str.ws3 (Str.code c3) (Str.code c2) (Str.code c1)
                else Str.ws3 (Str.code c1) (Str.code c2) (Str.code c3)) = false).
  { unfold Str.ws3. destruct back.
    - rewrite (E 128%N), (E 168%N), (E 169%N), (E 175%N), (E 159%N), (E 191%N), L by lia.
      cbn [andb orb]. rewrite !andb_false_r. reflexivity.
    - rewrite (E 225%N), (E 226%N), (E 227%N), (E 239%N) by lia. reflexivity. }
  rewrite W3. reflexivity.
Qed.

Lemma starts_solid_app a b : starts_solid a = true -> starts_solid (a ++ b) = true.
Proof. destruct a; [discriminate|]. intros H. exact H. Qed.

(** [trim] removes the white space around a text that starts and ends with
    an ASCII character that is none. *)
Lemma trim_padded p1 line p2 :
  blank p1 = true -> blank p2 = true ->
  starts_solid line = true -> ends_solid line = true ->
  Str.trim (p1 ++ line ++ p2) = line.
Proof.
  intros B1 B2 S E. unfold Str.trim, Str.trimStart, Str.trimEnd.
  rewrite (strip_ws_blank _ _ _ B1).
  rewrite (strip_ws_solid _ _ (starts_solid_app _ p2 S)).
  rewrite rev_app, strip_ws_blank by (now rewrite blank_rev).
  rewrite (strip_ws_solid _ _ E). apply rev_rev.
Qed.

(** A page is read as the line it holds. *)
Lemma page_is_read_as_its_line ms1 p1 line p2 ms2 p3 :
  forallb tag_content ms1 = true -> forallb tag_content ms2 = true ->
  blank p1 = true -> blank p2 = true -> blank p3 = true ->
  count "<" line = 0 -> starts_solid line = true -> ends_solid line = true ->
  Str.trim (Str.stripTags (tags ms1 ++ (p1 ++ line ++ p2) ++ tags ms2 ++ p3)) = line
  /\ Str.trim (Str.stripTags line) = line.
Proof.
  intros T1 T2 B1 B2 B3 C S E. split.
  - rewrite stripTags_around; try assumption.
    + rewrite !append_assoc. apply trim_padded; try assumption.
      rewrite blank_app, B2, B3. reflexivity.
    + rewrite !count_append, C, (blank_no_lt _ B1), (blank_no_lt _ B2). reflexivity.
    + now apply blank_no_lt.
  - rewrite (stripTags_no_lt _ C).
    pose proof (trim_padded "" line "" eq_refl eq_refl S E) as R.
    cbn [append] in R. now rewrite append_nil_r in R.
Qed.

(** C7: the legacy text ["2,10,100,0,128,0,Song - Artist"] resolves to the
    program ["Song - Artist"], 2 listeners, online, and no announcer (shown as
    the placeholder), alone and also inside a page, with the title in quotes
    and a line end after the markup.  In general, when the text without its
    markup has at least 7 comma-separated fields, the program is the fields
    from index 6 on joined by commas, without the quotes around it, and the
    listener count is the number read from field 0; no tag is left in the
    text that is split.  A page made of tags and white space around a line
    is read as the line: the program is what follows the sixth comma of the
    line, the count is the number in its first field. *)
Theorem legacy_text_is_read_by_fields :
  data_field "programa" (reply (only 3 legacy_text) noon) = Some (JStr "Song - Artist")
  /\ data_field "unicos" (reply (only 3 legacy_text) noon) = Some (JNum 2)
  /\ data_field "status" (reply (only 3 legacy_text) noon) = Some (JStr "online")
  /\ data_field "locutor" (reply (only 3 legacy_text) noon) = Some (JStr "—")
  /\ data_field "programa" (reply (only 3 legacy_page) noon) = Some (JStr "Song - Artist")
  /\ data_field "unicos" (reply (only 3 legacy_page) noon) = Some (JNum 2)
  /\ data_field "status" (reply (only 3 legacy_page) noon) = Some (JStr "online")
  /\ data_field "locutor" (reply (only 3 legacy_page) noon) = Some (JStr "—")
  /\ (forall res txt s,
        text_body res = Val txt ->
        let parts := Str.split "," (Str.trim (Str.stripTags txt)) in
        let current := Num.StringToNumber (nth 0 parts "") in
        let title := Str.stripQuotes (Str.join "," (skipn 6 parts)) in
        7 <= List.length parts ->
        (exists s',
            shapeC res s = (Val Break, s')
            /\ locutor s' = null
            /\ programa s' = (if String.eqb title "" then null else Some (JStr title))
            /\ unicos s' = Some (if Num.isFinite current then current else 0%float)
            /\ status s' = online_if (Num.gt0 current))
        /\ Str.join "," parts = Str.trim (Str.stripTags txt)
        /\ has_tag (Str.stripTags txt) = false
        /\ (exists a b,
              Str.join "," (skipn 6 parts) = a ++ title ++ b
              /\ all_quotes a = true /\ all_quotes b = true
              /\ starts_with_quote title = false /\ ends_with_quote title = false))
  /\ (forall res s ms1 p1 line p2 ms2 p3 fs rest,
        text_body res = Val (tags ms1 ++ (p1 ++ line ++ p2) ++ tags ms2 ++ p3) ->
        forallb tag_content ms1 = true -> forallb tag_content ms2 = true ->
        blank p1 = true -> blank p2 = true -> blank p3 = true ->
        count "<" line = 0 -> starts_solid line = true -> ends_solid line = true ->
        line = fields_then fs rest -> List.length fs = 6 ->
        (forall f, In f fs -> count "," f = 0) ->
        let current := Num.StringToNumber (nth 0 fs "") in
        let title := Str.stripQuotes rest in
        exists s',
          shapeC res s = (Val Break, s')
          /\ locutor s' = null
          /\ programa s' = (if String.eqb title "" then null else Some (JStr title))
          /\ unicos s' = Some (if Num.isFinite current then current else 0%float)
          /\ status s' = online_if (Num.gt0 current)).
Proof.
  do 8 (split; [vm_compute; reflexivity|]). split.
  - intros res txt s H parts current title L.
    split.
    { rewrite (shapeC_run _ _ _ H). cbv zeta. fold parts.
      apply Nat.leb_le in L. rewrite L.
      replace (hd "" parts) with (nth 0 parts "") by now destruct parts.
      eexists. split; [reflexivity|]. repeat split. }
    split; [apply join_split|].
    split; [apply replace_tags_leaves_no_tag; apply le_n|].
    apply stripQuotes_spec.
  - intros res s ms1 p1 line p2 ms2 p3 fs rest H T1 T2 B1 B2 B3 C S E F L6 Cf current title.
    destruct (page_is_read_as_its_line ms1 p1 line p2 ms2 p3 T1 T2 B1 B2 B3 C S E) as [P _].
    rewrite (shapeC_run _ _ _ H). cbv zeta. rewrite P, F, (split_fields_then _ _ Cf).
    destruct fs as [|f0 [|f1 [|f2 [|f3 [|f4 [|f5 [|f6 fs]]]]]]]; try discriminate L6.
    cbn [app List.length skipn hd nth] in *.
    destruct (Str.split "," rest) as [|r rs] eqn:R; [now destruct (split_not_nil "," rest)|].
    cbn [List.length Nat.leb]. rewrite <- R, join_split.
    eexists. split; [reflexivity|]. repeat split.
Qed.

Lemma legacy_text_is_read_by_fields_witness :
  exists s',
    shapeC (text_response legacy_page_text) initial = (Val Break, s')
    /\ programa s' = Some (JStr "Song - Artist")
    /\ unicos s' = Some 2%float
    /\ status s' = online.
Proof.
  destruct legacy_text_is_read_by_fields as (_ & _ & _ & _ & _ & _ & _ & _ & _ & G).
  destruct (G (text_response legacy_page_text) initial
              ["html"; "body"] "" ("2,10,100,0,128,0," ++ q "Song - Artist") ""
              ["/body"; "/html"] newline
              ["2"; "10"; "100"; "0"; "128"; "0"] (q "Song - Artist"))
    as (s' & R & _ & P & U & St).
  - vm_compute. reflexivity.
  - reflexivity.
  - reflexivity.
  - reflexivity.
  - reflexivity.
  - reflexivity.
  - vm_compute. reflexivity.
  - vm_compute. reflexivity.
  - vm_compute. reflexivity.
  - vm_compute. reflexivity.
  - reflexivity.
  - intros f Hf. cbn in Hf.
    repeat (destruct Hf as [<-|Hf]; [vm_compute; reflexivity|]). destruct Hf.
  - exists s'. split; [exact R|].
    split; [rewrite P|split; [rewrite U|rewrite St]]; vm_compute; reflexivity.
Defined.
